(** * header.js: shared header, name-index loader and search box

    A shallow embedding of [src/header.js] and the properties of its
    functions.

    Conventions of the model.
    - A JavaScript string is a [string]: a sequence of code units, here the
      code units below 256 (Latin-1).  On that range the built-ins used by
      the script ([toLowerCase], [trim], [startsWith], [includes], [split],
      [encodeURIComponent], [decodeURIComponent]) are given exactly.
    - The page is a record [page] that holds the two script globals
      ([_searchPokedex], [_searchDebounceTimer]), the part of the document
      the script reads and writes, the registered listeners, the timers and
      the network.
    - The script is single threaded and every [await] is run to completion
      before the next event is handled: calls are sequential.
    - Time is a clock in milliseconds.  [setTimeout] records a handle and a
      due time, and a pending timer fires when the clock reaches its due
      time.
    - Code that can throw lives in a small state-and-exception monad [M]. *)

From Stdlib Require Import ZArith NArith QArith String Ascii List Bool Lia.
From Stdlib Require Import SpecFloat DecimalString Qround.
From stdpp Require Import base list strings.

Local Open Scope string_scope.
Local Open Scope list_scope.
Set Warnings "-register-all".

(** [simpl] may unfold the append of strings. *)
#[local] Arguments String.append !_ _ : simpl nomatch.

(** ** JavaScript strings *)

Module Js.

Definition code (c : ascii) : N := N_of_ascii c.

Definition in_range (lo hi : N) (c : ascii) : bool :=
  ((lo <=? code c) && (code c <=? hi))%N.

(** The code units below 256 that [toLowerCase] changes: A-Z, and the
    Latin-1 capitals U+00C0-U+00DE without the multiplication sign U+00D7.
    Each maps to the code unit 32 above it.  On these strings [toLowerCase]
    works one code unit at a time; on text with a capital sigma it depends
    on the context, which the module [Wide] below gives for the Greek
    letters. *)
Definition isUpperCase (c : ascii) : bool :=
  in_range 65 90 c || in_range 192 214 c || in_range 216 222 c.

Definition toLowerCase_char (c : ascii) : ascii :=
  if isUpperCase c then ascii_of_N (code c + 32) else c.

Fixpoint toLowerCase (s : string) : string :=
  match s with
  | EmptyString => EmptyString
  | String c r => String (toLowerCase_char c) (toLowerCase r)
  end.

(** White space and line terminators below 256: TAB, LF, VT, FF, CR, SP and
    NBSP. *)
Definition isWhiteSpace (c : ascii) : bool :=
  in_range 9 13 c || (code c =? 32)%N || (code c =? 160)%N.

Fixpoint trimStart (s : string) : string :=
  match s with
  | EmptyString => EmptyString
  | String c r => if isWhiteSpace c then trimStart r else s
  end.

Definition isEmpty (s : string) : bool :=
  match s with EmptyString => true | String _ _ => false end.

Fixpoint trimEnd (s : string) : string :=
  match s with
  | EmptyString => EmptyString
  | String c r =>
      let r' := trimEnd r in
      if isWhiteSpace c && isEmpty r' then EmptyString else String c r'
  end.

Definition trim (s : string) : string := trimEnd (trimStart s).

(** [s.startsWith(p)] *)
Fixpoint startsWith (s p : string) {struct p} : bool :=
  match p, s with
  | EmptyString, _ => true
  | String _ _, EmptyString => false
  | String a p', String b s' => Ascii.eqb a b && startsWith s' p'
  end.

(** [s.includes(sub)] *)
Fixpoint includes (s sub : string) : bool :=
  startsWith s sub ||
  match s with
  | EmptyString => false
  | String _ r => includes r sub
  end.

(** [s.split(sep)] for a separator of one code unit: never the empty
    array. *)
Fixpoint split (sep : ascii) (s : string) : list string :=
  match s with
  | EmptyString => [EmptyString]
  | String c r =>
      if Ascii.eqb c sep then EmptyString :: split sep r
      else match split sep r with
           | seg :: segs => String c seg :: segs
           | [] => [String c EmptyString]
           end
  end.

(** [a.pop()]: the last element, [undefined] on the empty array. *)
Fixpoint pop (a : list string) : option string :=
  match a with
  | [] => None
  | [x] => Some x
  | _ :: r => pop r
  end.

(** [v || d] for a string or [undefined] [v]: the empty string and
    [undefined] are falsy. *)
Definition or_default (v : option string) (d : string) : string :=
  match v with
  | Some (String c r) => String c r
  | _ => d
  end.

(** *** [encodeURIComponent] and [decodeURIComponent] *)

Definition hexDigit (n : N) : ascii :=
  if (n <? 10)%N then ascii_of_N (48 + n) else ascii_of_N (55 + n).

Definition percent (b : N) : string :=
  String "%" (String (hexDigit (b / 16)) (String (hexDigit (b mod 16)) EmptyString)).

(** The characters [encodeURIComponent] leaves alone:
    A-Z a-z 0-9 - _ . ! ~ * ' ( ) *)
Definition isUnreserved (c : ascii) : bool :=
  in_range 65 90 c || in_range 97 122 c || in_range 48 57 c ||
  existsb (Ascii.eqb c) (list_ascii_of_string "-_.!~*'()").

(** Every other code unit is written as the bytes of its UTF-8 form, each
    as [%XX]: one byte below 128, two bytes from 128 to 255. *)
Definition encodeChar (c : ascii) : string :=
  if isUnreserved c then String c EmptyString
  else if (code c <? 128)%N then percent (code c)
  else percent (192 + code c / 64) +:+ percent (128 + code c mod 64).

Fixpoint encodeURIComponent (s : string) : string :=
  match s with
  | EmptyString => EmptyString
  | String c r => encodeChar c +:+ encodeURIComponent r
  end.

Definition hexValue (c : ascii) : option N :=
  if in_range 48 57 c then Some (code c - 48)%N
  else if in_range 65 70 c then Some (code c - 55)%N
  else if in_range 97 102 c then Some (code c - 87)%N
  else None.

Definition hexByte (h l : ascii) : option N :=
  match hexValue h, hexValue l with
  | Some a, Some b => Some (16 * a + b)%N
  | _, _ => None
  end.

(** [decodeURIComponent]: [None] stands for the [URIError] of a malformed
    escape, and for a result with a code point of 256 or more, which is
    outside the strings of this model: there the browser returns a string.
    On what [encodeURIComponent] makes of a string of this model the result
    is always [Some]. *)
Fixpoint decodeURIComponent (s : string) : option string :=
  match s with
  | EmptyString => Some EmptyString
  | String c r =>
      if Ascii.eqb c "%" then
        match r with
        | String h1 (String h2 r2) =>
            match hexByte h1 h2 with
            | Some b =>
                if (b <? 128)%N then
                  option_map (String (ascii_of_N b)) (decodeURIComponent r2)
                else if ((b =? 194) || (b =? 195))%N then
                  match r2 with
                  | String p (String h3 (String h4 r3)) =>
                      if Ascii.eqb p "%" then
                        match hexByte h3 h4 with
                        | Some b2 =>
                            if ((128 <=? b2) && (b2 <? 192))%N then
                              option_map
                                (String (ascii_of_N ((b - 192) * 64 + (b2 - 128))))
                                (decodeURIComponent r3)
                            else None
                        | None => None
                        end
                      else None
                  | _ => None
                  end
                else None
            | None => None
            end
        | _ => None
        end
      else option_map (String c) (decodeURIComponent r)
  end.

End Js.

(** ** JSON values

    What [res.json()] returns.  A number is an IEEE 754 double.  The
    properties of an object are listed in the order in which [Object.keys]
    enumerates them; the keys of an object are distinct. *)

Inductive json : Type :=
| JNull
| JBool (b : bool)
| JNumber (x : spec_float)
| JString (s : string)
| JArray (a : list json)
| JObject (props : list (string * json)).

(** [ToBoolean]: [null], [false], [0], [-0], [NaN] and the empty string are
    falsy; every object, also the empty one, is truthy. *)
Definition truthy (v : json) : bool :=
  match v with
  | JNull => false
  | JBool b => b
  | JNumber (S754_zero _) | JNumber S754_nan => false
  | JNumber _ => true
  | JString s => negb (Js.isEmpty s)
  | JArray _ | JObject _ => true
  end.

(** The empty object literal. *)
Definition empty_object : json := JObject [].

(** [v || {}] *)
Definition or_empty_object (v : json) : json :=
  if truthy v then v else empty_object.

Definition index_string (i : nat) : string :=
  NilZero.string_of_uint (Nat.to_uint i).

(** [Object.keys(v)] for a value that is not [null]: the own enumerable
    string keys.  An array and a string have their indices as keys, a number
    and a boolean have none. *)
Definition Object_keys (v : json) : list string :=
  match v with
  | JObject props => map fst props
  | JArray a => map index_string (seq 0 (length a))
  | JString s => map index_string (seq 0 (String.length s))
  | JNull | JBool _ | JNumber _ => []
  end.

(** ** Exceptions and network responses *)

Inductive exn : Type :=
| NetworkError                (* [fetch] rejects *)
| Error (message : string)    (* [new Error(message)] *)
| BodyError                   (* [res.json()] or [res.text()] rejects *)
| URIError.                   (* [decodeURIComponent] on a malformed escape *)

(** A response: its [ok] flag and its body once read and parsed, [None]
    when reading or parsing the body fails. *)
Record response (A : Type) : Type :=
  { ok : bool; body : option A }.
Arguments ok {A} _.
Arguments body {A} _.

(** What [fetch(url)] settles to. *)
Inductive fetch_result (A : Type) : Type :=
| Rejects
| Resolves (res : response A).
Arguments Rejects {A}.
Arguments Resolves {A} _.

(** ** The document *)

(** The five navigation links, named by their element ids. *)
Inductive nav_link : Type :=
| link_info | link_pokedex | link_moves | link_locations | link_abilities.

Definition nav_link_eqb (a b : nav_link) : bool :=
  match a, b with
  | link_info, link_info | link_pokedex, link_pokedex
  | link_moves, link_moves | link_locations, link_locations
  | link_abilities, link_abilities => true
  | _, _ => false
  end.

(** [box.style.display] *)
Inductive display_value : Type :=
| display_unset | display_none | display_block.

(** A [.result] row in the results container: its [data-name] attribute, its
    text, and whether [renderSearchResults] has put its click listener on
    it. *)
Record result_row : Type :=
  { data_name : string; row_text : string; row_onclick : bool }.

(** The element [#search-results]: its inline [display], its content as the
    sequence of [.result] rows, and its [aria-hidden] attribute. *)
Record results_box : Type :=
  { style_display : display_value;
    rows : list result_row;
    aria_hidden : option string }.

(** The listeners the script registers, one type for each event. *)
Inductive input_listener : Type := searchPokemon_listener.
Inductive keydown_listener : Type := enter_key_listener.
Inductive click_listener : Type := click_away_listener.

(** The first element of a fetched header: what it brings into the
    document. *)
Record header_element : Type :=
  { h_site_header : bool;
    h_search : option string;
    h_search_results : option results_box;
    h_nav_links : nav_link -> option bool;
    h_height : Q }.

(** [temp.innerHTML = html; temp.firstElementChild]: the parsed text of
    [header.html], [None] when it holds no element. *)
Definition html : Type := option header_element.

(** ** The page *)

Record page : Type :=
  { (* script globals *)
    _searchPokedex : json;
    _searchDebounceTimer : option positive;
    (* window.location: the path of the page and every assignment to href *)
    pathname : string;
    navigations : list string;
    (* document: the element #site-header, the input #search with its value,
       the container #search-results, the nav links with their "active"
       class, the computed top padding of the body in pixels *)
    site_header : bool;
    search : option string;
    search_results : option results_box;
    nav_links : nav_link -> option bool;
    body_paddingTop : Q;
    (* listeners on #search and on the document *)
    search_oninput : list input_listener;
    search_onkeydown : list keydown_listener;
    document_onclick : list click_listener;
    (* timers: the clock in milliseconds, the next handle, and the pending
       timeouts (handle, due time) in the order they were set *)
    now : Z;
    next_handle : positive;
    timers : list (positive * Z);
    (* network: what the n-th fetch of data/pokedex.json settles to, the
       number of such fetches so far, and what header.html settles to *)
    network : nat -> fetch_result json;
    fetches : nat;
    header_resource : fetch_result html;
    (* console.warn *)
    console : list (string * exn);
    (* a log of the input values read by the timeout callback;
       the script does not read it *)
    evaluations : list string }.

Definition set_searchPokedex (v : json) (s : page) : page :=
  {| _searchPokedex := v; _searchDebounceTimer := _searchDebounceTimer s;
     pathname := pathname s; navigations := navigations s;
     site_header := site_header s; search := search s;
     search_results := search_results s; nav_links := nav_links s;
     body_paddingTop := body_paddingTop s;
     search_oninput := search_oninput s;
     search_onkeydown := search_onkeydown s;
     document_onclick := document_onclick s; now := now s;
     next_handle := next_handle s; timers := timers s; network := network s;
     fetches := fetches s; header_resource := header_resource s;
     console := console s; evaluations := evaluations s |}.

Definition set_searchDebounceTimer (v : option positive) (s : page) : page :=
  {| _searchPokedex := _searchPokedex s; _searchDebounceTimer := v;
     pathname := pathname s; navigations := navigations s;
     site_header := site_header s; search := search s;
     search_results := search_results s; nav_links := nav_links s;
     body_paddingTop := body_paddingTop s;
     search_oninput := search_oninput s;
     search_onkeydown := search_onkeydown s;
     document_onclick := document_onclick s; now := now s;
     next_handle := next_handle s; timers := timers s; network := network s;
     fetches := fetches s; header_resource := header_resource s;
     console := console s; evaluations := evaluations s |}.

Definition set_navigations (v : list string) (s : page) : page :=
  {| _searchPokedex := _searchPokedex s;
     _searchDebounceTimer := _searchDebounceTimer s; pathname := pathname s;
     navigations := v; site_header := site_header s; search := search s;
     search_results := search_results s; nav_links := nav_links s;
     body_paddingTop := body_paddingTop s;
     search_oninput := search_oninput s;
     search_onkeydown := search_onkeydown s;
     document_onclick := document_onclick s; now := now s;
     next_handle := next_handle s; timers := timers s; network := network s;
     fetches := fetches s; header_resource := header_resource s;
     console := console s; evaluations := evaluations s |}.

Definition set_site_header (v : bool) (s : page) : page :=
  {| _searchPokedex := _searchPokedex s;
     _searchDebounceTimer := _searchDebounceTimer s; pathname := pathname s;
     navigations := navigations s; site_header := v; search := search s;
     search_results := search_results s; nav_links := nav_links s;
     body_paddingTop := body_paddingTop s;
     search_oninput := search_oninput s;
     search_onkeydown := search_onkeydown s;
     document_onclick := document_onclick s; now := now s;
     next_handle := next_handle s; timers := timers s; network := network s;
     fetches := fetches s; header_resource := header_resource s;
     console := console s; evaluations := evaluations s |}.

Definition set_search (v : option string) (s : page) : page :=
  {| _searchPokedex := _searchPokedex s;
     _searchDebounceTimer := _searchDebounceTimer s; pathname := pathname s;
     navigations := navigations s; site_header := site_header s; search := v;
     search_results := search_results s; nav_links := nav_links s;
     body_paddingTop := body_paddingTop s;
     search_oninput := search_oninput s;
     search_onkeydown := search_onkeydown s;
     document_onclick := document_onclick s; now := now s;
     next_handle := next_handle s; timers := timers s; network := network s;
     fetches := fetches s; header_resource := header_resource s;
     console := console s; evaluations := evaluations s |}.

Definition set_search_results (v : option results_box) (s : page) : page :=
  {| _searchPokedex := _searchPokedex s;
     _searchDebounceTimer := _searchDebounceTimer s; pathname := pathname s;
     navigations := navigations s; site_header := site_header s;
     search := search s; search_results := v; nav_links := nav_links s;
     body_paddingTop := body_paddingTop s;
     search_oninput := search_oninput s;
     search_onkeydown := search_onkeydown s;
     document_onclick := document_onclick s; now := now s;
     next_handle := next_handle s; timers := timers s; network := network s;
     fetches := fetches s; header_resource := header_resource s;
     console := console s; evaluations := evaluations s |}.

Definition set_nav_links (v : nav_link -> option bool) (s : page) : page :=
  {| _searchPokedex := _searchPokedex s;
     _searchDebounceTimer := _searchDebounceTimer s; pathname := pathname s;
     navigations := navigations s; site_header := site_header s;
     search := search s; search_results := search_results s; nav_links := v;
     body_paddingTop := body_paddingTop s;
     search_oninput := search_oninput s;
     search_onkeydown := search_onkeydown s;
     document_onclick := document_onclick s; now := now s;
     next_handle := next_handle s; timers := timers s; network := network s;
     fetches := fetches s; header_resource := header_resource s;
     console := console s; evaluations := evaluations s |}.

Definition set_body_paddingTop (v : Q) (s : page) : page :=
  {| _searchPokedex := _searchPokedex s;
     _searchDebounceTimer := _searchDebounceTimer s; pathname := pathname s;
     navigations := navigations s; site_header := site_header s;
     search := search s; search_results := search_results s;
     nav_links := nav_links s; body_paddingTop := v;
     search_oninput := search_oninput s;
     search_onkeydown := search_onkeydown s;
     document_onclick := document_onclick s; now := now s;
     next_handle := next_handle s; timers := timers s; network := network s;
     fetches := fetches s; header_resource := header_resource s;
     console := console s; evaluations := evaluations s |}.

Definition set_search_oninput (v : list input_listener) (s : page) : page :=
  {| _searchPokedex := _searchPokedex s;
     _searchDebounceTimer := _searchDebounceTimer s; pathname := pathname s;
     navigations := navigations s; site_header := site_header s;
     search := search s; search_results := search_results s;
     nav_links := nav_links s; body_paddingTop := body_paddingTop s;
     search_oninput := v; search_onkeydown := search_onkeydown s;
     document_onclick := document_onclick s; now := now s;
     next_handle := next_handle s; timers := timers s; network := network s;
     fetches := fetches s; header_resource := header_resource s;
     console := console s; evaluations := evaluations s |}.

Definition set_search_onkeydown (v : list keydown_listener) (s : page) : page :=
  {| _searchPokedex := _searchPokedex s;
     _searchDebounceTimer := _searchDebounceTimer s; pathname := pathname s;
     navigations := navigations s; site_header := site_header s;
     search := search s; search_results := search_results s;
     nav_links := nav_links s; body_paddingTop := body_paddingTop s;
     search_oninput := search_oninput s; search_onkeydown := v;
     document_onclick := document_onclick s; now := now s;
     next_handle := next_handle s; timers := timers s; network := network s;
     fetches := fetches s; header_resource := header_resource s;
     console := console s; evaluations := evaluations s |}.

Definition set_document_onclick (v : list click_listener) (s : page) : page :=
  {| _searchPokedex := _searchPokedex s;
     _searchDebounceTimer := _searchDebounceTimer s; pathname := pathname s;
     navigations := navigations s; site_header := site_header s;
     search := search s; search_results := search_results s;
     nav_links := nav_links s; body_paddingTop := body_paddingTop s;
     search_oninput := search_oninput s;
     search_onkeydown := search_onkeydown s; document_onclick := v;
     now := now s; next_handle := next_handle s; timers := timers s;
     network := network s; fetches := fetches s;
     header_resource := header_resource s; console := console s;
     evaluations := evaluations s |}.

Definition set_now (v : Z) (s : page) : page :=
  {| _searchPokedex := _searchPokedex s;
     _searchDebounceTimer := _searchDebounceTimer s; pathname := pathname s;
     navigations := navigations s; site_header := site_header s;
     search := search s; search_results := search_results s;
     nav_links := nav_links s; body_paddingTop := body_paddingTop s;
     search_oninput := search_oninput s;
     search_onkeydown := search_onkeydown s;
     document_onclick := document_onclick s; now := v;
     next_handle := next_handle s; timers := timers s; network := network s;
     fetches := fetches s; header_resource := header_resource s;
     console := console s; evaluations := evaluations s |}.

Definition set_next_handle (v : positive) (s : page) : page :=
  {| _searchPokedex := _searchPokedex s;
     _searchDebounceTimer := _searchDebounceTimer s; pathname := pathname s;
     navigations := navigations s; site_header := site_header s;
     search := search s; search_results := search_results s;
     nav_links := nav_links s; body_paddingTop := body_paddingTop s;
     search_oninput := search_oninput s;
     search_onkeydown := search_onkeydown s;
     document_onclick := document_onclick s; now := now s; next_handle := v;
     timers := timers s; network := network s; fetches := fetches s;
     header_resource := header_resource s; console := console s;
     evaluations := evaluations s |}.

Definition set_timers (v : list (positive * Z)) (s : page) : page :=
  {| _searchPokedex := _searchPokedex s;
     _searchDebounceTimer := _searchDebounceTimer s; pathname := pathname s;
     navigations := navigations s; site_header := site_header s;
     search := search s; search_results := search_results s;
     nav_links := nav_links s; body_paddingTop := body_paddingTop s;
     search_oninput := search_oninput s;
     search_onkeydown := search_onkeydown s;
     document_onclick := document_onclick s; now := now s;
     next_handle := next_handle s; timers := v; network := network s;
     fetches := fetches s; header_resource := header_resource s;
     console := console s; evaluations := evaluations s |}.

Definition set_fetches (v : nat) (s : page) : page :=
  {| _searchPokedex := _searchPokedex s;
     _searchDebounceTimer := _searchDebounceTimer s; pathname := pathname s;
     navigations := navigations s; site_header := site_header s;
     search := search s; search_results := search_results s;
     nav_links := nav_links s; body_paddingTop := body_paddingTop s;
     search_oninput := search_oninput s;
     search_onkeydown := search_onkeydown s;
     document_onclick := document_onclick s; now := now s;
     next_handle := next_handle s; timers := timers s; network := network s;
     fetches := v; header_resource := header_resource s;
     console := console s; evaluations := evaluations s |}.

Definition set_console (v : list (string * exn)) (s : page) : page :=
  {| _searchPokedex := _searchPokedex s;
     _searchDebounceTimer := _searchDebounceTimer s; pathname := pathname s;
     navigations := navigations s; site_header := site_header s;
     search := search s; search_results := search_results s;
     nav_links := nav_links s; body_paddingTop := body_paddingTop s;
     search_oninput := search_oninput s;
     search_onkeydown := search_onkeydown s;
     document_onclick := document_onclick s; now := now s;
     next_handle := next_handle s; timers := timers s; network := network s;
     fetches := fetches s; header_resource := header_resource s;
     console := v; evaluations := evaluations s |}.

Definition set_evaluations (v : list string) (s : page) : page :=
  {| _searchPokedex := _searchPokedex s;
     _searchDebounceTimer := _searchDebounceTimer s; pathname := pathname s;
     navigations := navigations s; site_header := site_header s;
     search := search s; search_results := search_results s;
     nav_links := nav_links s; body_paddingTop := body_paddingTop s;
     search_oninput := search_oninput s;
     search_onkeydown := search_onkeydown s;
     document_onclick := document_onclick s; now := now s;
     next_handle := next_handle s; timers := timers s; network := network s;
     fetches := fetches s; header_resource := header_resource s;
     console := console s; evaluations := v |}.

(** ** Code that can throw: state and exceptions *)

Inductive result (A : Type) : Type :=
| Returned (a : A)
| Thrown (e : exn).
Arguments Returned {A} _.
Arguments Thrown {A} _.

Definition M (A : Type) : Type := page -> result A * page.

Definition ret {A : Type} (a : A) : M A := fun s => (Returned a, s).

Definition throw {A : Type} (e : exn) : M A := fun s => (Thrown e, s).

Definition bind {A B : Type} (m : M A) (k : A -> M B) : M B :=
  fun s =>
    match m s with
    | (Returned a, s') => k a s'
    | (Thrown e, s') => (Thrown e, s')
    end.

(** [try { m } catch (e) { h e }] *)
Definition try_catch {A : Type} (m : M A) (h : exn -> M A) : M A :=
  fun s =>
    match m s with
    | (Returned a, s') => (Returned a, s')
    | (Thrown e, s') => h e s'
    end.

Definition get {A : Type} (f : page -> A) : M A := fun s => (Returned (f s), s).

Definition modify (f : page -> page) : M unit := fun s => (Returned tt, f s).

(** A listener or a timer callback run by the event loop: an exception that
    escapes it is reported by the browser and the page goes on. *)
Definition run {A : Type} (m : M A) (s : page) : page := snd (m s).

Notation "'let*' x ':=' m 'in' k" := (bind m (fun x => k))
  (at level 10, x name, m at level 100, k at level 200).
Notation "m '>>' k" := (bind m (fun _ => k))
  (at level 90, right associativity).

Definition console_warn (message : string) (e : exn) : M unit :=
  modify (fun s => set_console (console s ++ [(message, e)]) s).

(** [if (!res.ok) throw new Error(message)] *)
Definition check_ok {A : Type} (res : response A) (message : string) : M unit :=
  if negb (ok res) then throw (Error message) else ret tt.

(** [await res.json()], [res.text()] *)
Definition read_body {A : Type} (res : response A) : M A :=
  match body res with
  | Some v => ret v
  | None => throw BodyError
  end.

(** [await fetch("data/pokedex.json")]: one more fetch is counted, whatever
    it settles to. *)
Definition fetch_pokedex : M (response json) :=
  fun s =>
    let s' := set_fetches (S (fetches s)) s in
    match network s (fetches s) with
    | Rejects => (Thrown NetworkError, s')
    | Resolves res => (Returned res, s')
    end.

(** [fetch("header.html")] *)
Definition fetch_header : M (response html) :=
  fun s =>
    match header_resource s with
    | Rejects => (Thrown NetworkError, s)
    | Resolves res => (Returned res, s)
    end.

(** ** [loadSearchPokedex] (lines 12-24) *)

Definition loadSearchPokedex : M json :=
  let* cached := get _searchPokedex in
  if truthy cached then ret cached
  else
    try_catch
      (let* res := fetch_pokedex in
       check_ok res "pokedex.json fetch failed" >>
       let* v := read_body res in
       modify (set_searchPokedex v) >>
       get _searchPokedex)
      (fun e =>
       console_warn "Header search: could not load pokedex.json:" e >>
       modify (set_searchPokedex empty_object) >>
       get _searchPokedex).

(** ** [renderSearchResults] (lines 26-45) *)

Definition with_display (d : display_value) (box : results_box) : results_box :=
  {| style_display := d; rows := rows box; aria_hidden := aria_hidden box |}.

Definition with_rows (r : list result_row) (box : results_box) : results_box :=
  {| style_display := style_display box; rows := r; aria_hidden := aria_hidden box |}.

Definition with_aria_hidden (v : string) (box : results_box) : results_box :=
  {| style_display := style_display box; rows := rows box; aria_hidden := Some v |}.

(** [`pokemon.html?name=${encodeURIComponent(name)}`] *)
Definition detail_url (name : string) : string :=
  "pokemon.html?name=" +:+ Js.encodeURIComponent name.

(** [window.location.href = url] *)
Definition navigate (url : string) (s : page) : page :=
  set_navigations (navigations s ++ [url]) s.

(** The element that [<div class="result" data-name="...">name</div>]
    parses to, for a name that holds no markup: line 35 writes the name into
    the markup as it is, and what the parser makes of a name with a
    less-than sign or an ampersand (other texts, other rows) is not
    modelled. *)
Definition result_html (name : string) : result_row :=
  {| data_name := Js.encodeURIComponent name; row_text := name;
     row_onclick := false |}.

(** [el.addEventListener("click", ...)] on a row *)
Definition add_onclick (r : result_row) : result_row :=
  {| data_name := data_name r; row_text := row_text r; row_onclick := true |}.

(** The click listener of a row (lines 38-41). *)
Definition result_onclick (r : result_row) : M unit :=
  match Js.decodeURIComponent (data_name r) with
  | None => throw URIError
  | Some name => modify (navigate (detail_url name))
  end.

(** [matches] is [None] for the argument [null]. *)
Definition renderSearchResults (matches : option (list string)) (s : page) : page :=
  match search_results s with
  | None => s
  | Some box =>
      match matches with
      | None | Some [] =>
          let box := with_display display_none box in
          let box := with_rows [] box in
          let box := with_aria_hidden "true" box in
          set_search_results (Some box) s
      | Some names =>
          let box := with_rows (map result_html names) box in
          let box := with_rows (map add_onclick (rows box)) box in
          let box := with_display display_block box in
          let box := with_aria_hidden "false" box in
          set_search_results (Some box) s
      end
  end.

(** ** [searchPokemon] (lines 47-66) *)

(** [clearTimeout(h)]: nothing happens when no pending timer has the
    handle. *)
Definition clearTimeout (h : positive) (s : page) : page :=
  set_timers (List.filter (fun t => negb (Pos.eqb (fst t) h)) (timers s)) s.

(** [setTimeout(callback, delay)]: the script has one callback only, the one
    of [searchPokemon], so a pending timer is its handle and its due time.
    A handle is a positive integer, hence truthy. *)
Definition setTimeout (delay : Z) (s : page) : positive * page :=
  let h := next_handle s in
  (h, set_next_handle (Pos.succ h)
        (set_timers (timers s ++ [(h, (now s + delay)%Z)]) s)).

(** Lines 62-63: the names to show for the lower-cased, trimmed query
    [raw]. *)
Definition searchMatches (pokedex : json) (raw : string) : list string :=
  let names := Object_keys (or_empty_object pokedex) in
  take 15 (List.filter (fun name => Js.includes (Js.toLowerCase name) raw) names).

(** The callback reads the text [v] of the input: a note in the log. *)
Definition log_evaluation (v : string) (s : page) : page :=
  set_evaluations (evaluations s ++ [v]) s.

(** The callback given to [setTimeout] (lines 55-65).  [qEl] is the input
    found by [searchPokemon]; the document never loses an element, so it is
    the input of the current page. *)
Definition searchPokemon_timeout : M unit :=
  let* value := get search in
  match value with
  | None => ret tt
  | Some v =>
      modify (log_evaluation v) >>
      let raw := Js.toLowerCase (Js.trim v) in
      if Js.isEmpty raw then modify (renderSearchResults None)
      else
        let* pokedex := loadSearchPokedex in
        modify (renderSearchResults (Some (searchMatches pokedex raw)))
  end.

Definition searchPokemon (s : page) : page :=
  match search s, search_results s with
  | Some _, Some _ =>
      let s :=
        match _searchDebounceTimer s with
        | Some h => clearTimeout h s
        | None => s
        end in
      let (h, s) := setTimeout 120 s in
      set_searchDebounceTimer (Some h) s
  | _, _ => s
  end.

(** ** [setActiveHeaderLink] (lines 68-89) *)

Definition all_links : list nav_link :=
  [link_info; link_pokedex; link_moves; link_locations; link_abilities].

(** [el = document.getElementById(id); if (el) el.classList.remove("active")]
    and the same with [add]: nothing happens when the element is absent. *)
Definition set_active (b : bool) (id : nav_link) (s : page) : page :=
  set_nav_links
    (fun k =>
       if nav_link_eqb k id then option_map (fun _ => b) (nav_links s k)
       else nav_links s k) s.

Definition classList_remove_active : nav_link -> page -> page := set_active false.
Definition classList_add_active : nav_link -> page -> page := set_active true.

(** [window.location.pathname.split("/").pop() || "index.html"] *)
Definition current_path (s : page) : string :=
  Js.or_default (Js.pop (Js.split "/" (pathname s))) "index.html".

Definition setActiveHeaderLink (s : page) : page :=
  let path := current_path s in
  let s := fold_left (fun s id => classList_remove_active id s) all_links s in
  if Js.startsWith path "info" then classList_add_active link_info s
  else if Js.startsWith path "index" || String.eqb path "" then
    classList_add_active link_pokedex s
  else if Js.startsWith path "moves" || Js.startsWith path "movedescriptions" then
    classList_add_active link_moves s
  else if Js.startsWith path "locations" || Js.startsWith path "trainer"
          || Js.startsWith path "trainers" || Js.startsWith path "encounters" then
    classList_add_active link_locations s
  else if Js.startsWith path "abilities" then
    classList_add_active link_abilities s
  else classList_add_active link_pokedex s.

(** ** Listeners of [installHeaderFromFile] (lines 118-142) *)

(** Where a click lands. *)
Inductive click_target : Type :=
| on_search_input
| on_result (i : nat)
| on_results_box
| elsewhere.

(** [box.contains(ev.target)] *)
Definition box_contains (t : click_target) : bool :=
  match t with
  | on_result _ | on_results_box => true
  | on_search_input | elsewhere => false
  end.

(** [ev.target !== q] *)
Definition not_search_input (t : click_target) : bool :=
  match t with
  | on_search_input => false
  | _ => true
  end.

(** The click listener on the document (lines 135-142). *)
Definition click_away (target : click_target) (s : page) : page :=
  match search_results s, search s with
  | Some box, Some _ =>
      if negb (box_contains target) && not_search_input target then
        set_search_results (Some (with_display display_none box)) s
      else s
  | _, _ => s
  end.

(** A click event: the listener of the row it lands on, if any, then, as the
    event bubbles, the listeners on the document. *)
Definition dispatch_click (target : click_target) (s : page) : page :=
  let s :=
    match target, search_results s with
    | on_result i, Some box =>
        match rows box !! i with
        | Some r => if row_onclick r then run (result_onclick r) s else s
        | None => s
        end
    | _, _ => s
    end in
  fold_left
    (fun s l => match l with click_away_listener => click_away target s end)
    (document_onclick s) s.

(** [document.querySelector("#search-results .result")] *)
Definition first_result (s : page) : option result_row :=
  match search_results s with
  | Some box => head (rows box)
  | None => None
  end.

(** The keydown listener on the input (lines 122-132); [first.click()]
    dispatches a click on the first row. *)
Definition enter_key (key : string) (s : page) : page :=
  if String.eqb key "Enter" then
    match first_result s with
    | Some _ => dispatch_click (on_result 0) s
    | None =>
        match search s with
        | Some v =>
            let val := Js.trim v in
            if negb (Js.isEmpty val) then navigate (detail_url val) s else s
        | None => s
        end
    end
  else s.

(** ** Events on the input *)

Definition dispatch_input (s : page) : page :=
  fold_left
    (fun s l => match l with searchPokemon_listener => searchPokemon s end)
    (search_oninput s) s.

Definition dispatch_keydown (key : string) (s : page) : page :=
  fold_left
    (fun s l => match l with enter_key_listener => enter_key key s end)
    (search_onkeydown s) s.

(** The user changes the text of the input to [v]. *)
Definition type_text (v : string) (s : page) : page :=
  match search s with
  | Some _ => dispatch_input (set_search (Some v) s)
  | None => s
  end.

(** The user presses a key in the input. *)
Definition press_key (key : string) (s : page) : page :=
  match search s with
  | Some _ => dispatch_keydown key s
  | None => s
  end.

(** ** Timers *)

(** A pending timer fires: it leaves the list and its callback runs, with
    its [await] of the loader as one step.  A load that is still pending
    while other events are handled is not modelled. *)
Definition fire (t : positive * Z) (s : page) : page :=
  run searchPokemon_timeout
    (set_timers (List.filter (fun u => negb (Pos.eqb (fst u) (fst t))) (timers s)) s).

(** The clock moves to [t] with no other event in between: each timer due
    by then fires, as soon as it is due.  All timers are set with the same
    delay, so the list, kept in the order of the calls, is in the order of
    the due times; the callback sets and clears no timer. *)
Definition advance_to (t : Z) (s : page) : page :=
  let due := List.filter (fun u => (snd u <=? t)%Z) (timers s) in
  let s := fold_left (fun s u => fire u s) due s in
  set_now (Z.max t (now s)) s.

(** A keystroke at time [t] that leaves the text [v] in the input. *)
Definition keystroke (tv : Z * string) (s : page) : page :=
  type_text (snd tv) (advance_to (fst tv) s).

(** ** [installHeaderFromFile] (lines 91-166) *)

(** [qEl.addEventListener("input", searchPokemon)]: [searchPokemon] is one
    function object, and a listener that is already registered is not
    registered again. *)
Definition addEventListener_input (s : page) : page :=
  match search_oninput s with
  | [] => set_search_oninput [searchPokemon_listener] s
  | _ :: _ => s
  end.

(** [qEl.addEventListener("keydown", (e) => ...)] and
    [document.addEventListener("click", (ev) => ...)]: each call registers a
    new function object. *)
Definition addEventListener_keydown (s : page) : page :=
  set_search_onkeydown (search_onkeydown s ++ [enter_key_listener]) s.

Definition addEventListener_click (s : page) : page :=
  set_document_onclick (document_onclick s ++ [click_away_listener]) s.

(** [document.body.insertBefore(header, document.body.firstChild)]: the new
    element comes first in the document, so an id that occurs in it now
    names its element, which has no listeners yet; any other id names what
    it named before. *)
Definition insertBefore_firstChild (h : header_element) (s : page) : page :=
  let s := set_site_header (h_site_header h || site_header s) s in
  let s :=
    match h_search h with
    | Some v => set_search_onkeydown [] (set_search_oninput [] (set_search (Some v) s))
    | None => s
    end in
  let s :=
    match h_search_results h with
    | Some box => set_search_results (Some box) s
    | None => s
    end in
  set_nav_links
    (fun k => match h_nav_links h k with
              | Some a => Some a
              | None => nav_links s k
              end) s.

(** [parseInt(text, 10)] of a computed length in pixels: the integer part. *)
Definition parseInt (px : Q) : Z := Z.quot (Qnum px) (Zpos (Qden px)).

Definition Qlt_bool (a b : Q) : bool := negb (Qle_bool b a).

(** Lines 111-116. *)
Definition ensure_padding (h : header_element) (s : page) : page :=
  let currentPadding := inject_Z (parseInt (body_paddingTop s)) in
  let headerHeight := if Qeq_bool (h_height h) 0 then 68%Q else h_height h in
  if Qlt_bool currentPadding headerHeight then
    set_body_paddingTop (headerHeight + 8)%Q s
  else s.

(** The second [then] callback (lines 103-145). *)
Definition installHeader_then (text : html) : M unit :=
  match text with
  | None => ret tt
  | Some header =>
      modify (insertBefore_firstChild header) >>
      modify (ensure_padding header) >>
      (let* qEl := get search in
       match qEl with
       | Some _ =>
           modify addEventListener_input >> modify addEventListener_keydown
       | None => ret tt
       end) >>
      modify addEventListener_click >>
      modify setActiveHeaderLink
  end.

(** The header built inline by the [catch] callback. *)
Definition fallback : header_element :=
  {| h_site_header := true;
     h_search := Some EmptyString;
     h_search_results :=
       Some {| style_display := display_unset; rows := [];
               aria_hidden := Some "true" |};
     h_nav_links := fun _ => None;
     h_height := 0 |}.

(** The [catch] callback (lines 146-165). *)
Definition installHeader_catch (err : exn) : M unit :=
  console_warn "Could not fetch header.html:" err >>
  modify (insertBefore_firstChild fallback) >>
  (let* qEl := get search in
   match qEl with
   | Some _ => modify addEventListener_input
   | None => ret tt
   end) >>
  modify setActiveHeaderLink.

Definition installHeaderFromFile : M unit :=
  let* present := get site_header in
  if present then modify setActiveHeaderLink
  else
    try_catch
      (let* res := fetch_header in
       check_ok res "header.html not found" >>
       let* text := read_body res in
       installHeader_then text)
      installHeader_catch.

(** The [DOMContentLoaded] listener (lines 169-175), with its two [await]
    as one step: events that are handled while the header or the data is
    being fetched are not modelled. *)
Definition onDOMContentLoaded : M unit :=
  installHeaderFromFile >>
  let* _ := loadSearchPokedex in
  ret tt.

(** ** The events of a page *)

(** What happens on a page once the script is loaded, each with its time on
    the clock: the user edits the text of the input, presses a key in it,
    clicks somewhere, or nothing happens until the time given. *)
Inductive event : Type :=
| input_event (t : Z) (v : string)
| keydown_event (t : Z) (key : string)
| click_event (t : Z) (target : click_target)
| idle (t : Z).

Definition handle (e : event) (s : page) : page :=
  match e with
  | input_event t v => keystroke (t, v) s
  | keydown_event t key => press_key key (advance_to t s)
  | click_event t target => dispatch_click target (advance_to t s)
  | idle t => advance_to t s
  end.

(** ** Pages to run the script on *)

(** A page without a header, as the script finds it when it starts: both
    globals are [null] and nothing is registered. *)
Definition bare_page (path : string) (net : nat -> fetch_result json)
    (header : fetch_result html) : page :=
  {| _searchPokedex := JNull; _searchDebounceTimer := None;
     pathname := path; navigations := [];
     site_header := false; search := None; search_results := None;
     nav_links := fun _ => None; body_paddingTop := 0;
     search_oninput := []; search_onkeydown := []; document_onclick := [];
     now := 0; next_handle := 1; timers := [];
     network := net; fetches := 0; header_resource := header;
     console := []; evaluations := [] |}.

(** A [header.html] with the five links, the input and the container. *)
Definition full_header : header_element :=
  {| h_site_header := true;
     h_search := Some EmptyString;
     h_search_results :=
       Some {| style_display := display_none; rows := [];
               aria_hidden := Some "true" |};
     h_nav_links := fun _ => Some false;
     h_height := 68 |}.

Definition serves {A : Type} (v : A) : fetch_result A :=
  Resolves {| ok := true; body := Some v |}.

Definition not_found {A : Type} : fetch_result A :=
  Resolves {| ok := false; body := None |}.

Definition pokedex3 : json :=
  JObject [("Charmander", JNull); ("Charizard", JNull); ("Squirtle", JNull)].

(** The page at [path] once [DOMContentLoaded] has been handled, with
    [header.html] as above and a network that always answers [data]. *)
Definition loaded_page (path : string) (data : fetch_result json) : page :=
  run onDOMContentLoaded (bare_page path (fun _ => data) (serves (Some full_header))).

(** A page on which the data cannot be fetched. *)
Definition offline_page : page := bare_page "/index.html" (fun _ => Rejects) Rejects.

(** A page whose data resource is the JSON text [null]. *)
Definition null_page : page := bare_page "/index.html" (fun _ => serves JNull) Rejects.

(** A page without a header whose data resource is [pokedex3]. *)
Definition char_page : page :=
  bare_page "/index.html" (fun _ => serves pokedex3) Rejects.

(** A page at [path] with the five links in its document, none of them
    marked. *)
Definition linked_page (path : string) : page :=
  set_nav_links (fun _ => Some false) (bare_page path (fun _ => Rejects) Rejects).

(** A loaded page on which [mr] has been typed and searched. *)
Definition mime_page : page :=
  run searchPokemon_timeout
    (type_text "mr"
       (loaded_page "/index.html"
          (serves (JObject [("Mr. Mime", JNull); ("Abra", JNull)])))).

(** The page [s] on a site where [header.html] settles to [r]. *)
Definition with_header_resource (r : fetch_result html) (s : page) : page :=
  {| _searchPokedex := _searchPokedex s;
     _searchDebounceTimer := _searchDebounceTimer s;
     pathname := pathname s; navigations := navigations s;
     site_header := site_header s; search := search s;
     search_results := search_results s; nav_links := nav_links s;
     body_paddingTop := body_paddingTop s;
     search_oninput := search_oninput s;
     search_onkeydown := search_onkeydown s;
     document_onclick := document_onclick s; now := now s;
     next_handle := next_handle s; timers := timers s; network := network s;
     fetches := fetches s; header_resource := r;
     console := console s; evaluations := evaluations s |}.

(** ** Notions used in the statements *)

(** [sub] occurs in [s] as a substring. *)
Definition is_substring (sub s : string) : Prop :=
  exists pre post : string, s = pre +:+ sub +:+ post.

(** Two texts that differ only in case: code unit by code unit they are
    equal, or one is a capital and the other is its small letter. *)
Inductive differ_only_in_case : string -> string -> Prop :=
| case_end : differ_only_in_case EmptyString EmptyString
| case_same c r1 r2 :
    differ_only_in_case r1 r2 ->
    differ_only_in_case (String c r1) (String c r2)
| case_lower c r1 r2 :
    Js.isUpperCase c = true ->
    differ_only_in_case r1 r2 ->
    differ_only_in_case (String c r1) (String (Js.toLowerCase_char c) r2)
| case_upper c r1 r2 :
    Js.isUpperCase c = true ->
    differ_only_in_case r1 r2 ->
    differ_only_in_case (String (Js.toLowerCase_char c) r1) (String c r2).

(** A text that is empty or made of white space only. *)
Fixpoint whitespace_only (s : string) : bool :=
  match s with
  | EmptyString => true
  | String c r => Js.isWhiteSpace c && whitespace_only r
  end.

(** The row that [renderSearchResults] leaves in the container for a
    name. *)
Definition rendered_row (name : string) : result_row :=
  add_onclick (result_html name).

(** A file name holds no slash. *)
Fixpoint no_slash (s : string) : bool :=
  match s with
  | EmptyString => true
  | String c r => negb (Ascii.eqb c "/") && no_slash r
  end.

(** The three ways in which the fetch of the data can fail: [fetch] rejects,
    the response is not a success, the body is not JSON. *)
Definition fetch_fails {A : Type} (r : fetch_result A) : bool :=
  match r with
  | Rejects => true
  | Resolves res => negb (ok res) || match body res with None => true | Some _ => false end
  end.

(** The prefix rules as the specification words them. *)
Definition claimed_active_link (file : string) : nav_link :=
  if Js.startsWith file "info" then link_info
  else if Js.startsWith file "index" || Js.isEmpty file then link_pokedex
  else if Js.startsWith file "moves" || Js.startsWith file "move-descriptions" then
    link_moves
  else if Js.startsWith file "locations" || Js.startsWith file "trainers"
          || Js.startsWith file "encounters" then link_locations
  else if Js.startsWith file "abilities" then link_abilities
  else link_pokedex.

(** The prefix rules with the prefixes of the script: [movedescriptions]
    without a hyphen, and [trainer], of which [trainers] is a case. *)
Definition active_link (file : string) : nav_link :=
  if Js.startsWith file "info" then link_info
  else if Js.startsWith file "index" then link_pokedex
  else if Js.startsWith file "moves" || Js.startsWith file "movedescriptions" then
    link_moves
  else if Js.startsWith file "locations" || Js.startsWith file "trainer"
          || Js.startsWith file "encounters" then link_locations
  else if Js.startsWith file "abilities" then link_abilities
  else link_pokedex.

(** The pending timers of a page that only this script sets timers on: none,
    or the one whose handle is in [_searchDebounceTimer]. *)
Definition debounce_ok (s : page) : Prop :=
  timers s = [] \/
  exists (h : positive) (due : Z),
    timers s = [(h, due)] /\ _searchDebounceTimer s = Some h.

(** Keystrokes at times that do not decrease, each less than 120 ms after
    the one before, the first of them after [t0]. *)
Fixpoint rapid (t0 : Z) (ks : list (Z * string)) : Prop :=
  match ks with
  | [] => True
  | k :: r => (t0 <= fst k < t0 + 120)%Z /\ rapid (fst k) r
  end.

(** [t] has the timers, the clock, the input and the listener of [s], and
    the container if [s] has it. *)
Definition same_timers (s t : page) : Prop :=
  timers t = timers s /\
  _searchDebounceTimer t = _searchDebounceTimer s /\
  now t = now s /\
  next_handle t = next_handle s /\
  search t = search s /\
  search_oninput t = search_oninput s /\
  (is_Some (search_results s) -> is_Some (search_results t)).

(** The page just after a keystroke at time [t] that left the text [v]: one
    timer is pending, due 120 ms later, and its handle is in the global. *)
Definition armed (t : Z) (v : string) (s : page) : Prop :=
  (exists h : positive,
     timers s = [(h, (t + 120)%Z)] /\ _searchDebounceTimer s = Some h) /\
  now s = t /\
  search s = Some v /\
  is_Some (search_results s) /\
  search_oninput s = [searchPokemon_listener].

(** The container is visible with [aria-hidden] false, or hidden with
    [aria-hidden] true. *)
Definition visibility_agrees (box : results_box) : Prop :=
  (style_display box = display_block /\ aria_hidden box = Some "false") \/
  (style_display box = display_none /\ aria_hidden box = Some "true").

(** [n] sequential calls of the loader. *)
Definition load_times (n : nat) (s : page) : page :=
  Nat.iter n (run loadSearchPokedex) s.

(** ** [normalizeName] (lines 8-10) *)

(** The code units that the pattern [[^a-z0-9]] does not match. *)
Definition isLowerAlnum (c : ascii) : bool :=
  Js.in_range 97 122 c || Js.in_range 48 57 c.

(** [s.replace(/[^a-z0-9]/g, "")] *)
Fixpoint remove_non_alnum (s : string) : string :=
  match s with
  | EmptyString => EmptyString
  | String c r =>
      if isLowerAlnum c then String c (remove_non_alnum r) else remove_non_alnum r
  end.

(** [n] is a string, or [None] for [undefined] and [null]. *)
Definition normalizeName (n : option string) : string :=
  remove_non_alnum (Js.toLowerCase (Js.or_default n EmptyString)).

(** ** More notions used in the statements *)

(** Every code unit of [s] passes the test [p]. *)
Fixpoint every (p : ascii -> bool) (s : string) : bool :=
  match s with
  | EmptyString => true
  | String c r => p c && every p r
  end.

(** The code units that can stand in a URL and in a quoted attribute as
    they are: the unreserved ones, with the hexadecimal digits among them,
    and the percent sign. *)
Definition isUrlSafe (c : ascii) : bool :=
  Js.isUnreserved c || Ascii.eqb c "%".

(** An event without a key and without a click: the user edits the text, or
    time passes. *)
Definition typing_or_waiting (e : event) : bool :=
  match e with
  | input_event _ _ | idle _ => true
  | keydown_event _ _ | click_event _ _ => false
  end.

(** The page after the events [es], in order. *)
Definition after_events (es : list event) (s : page) : page :=
  fold_left (fun s e => handle e s) es s.

(** The marks of the links, read in the order of [all_links]. *)
Definition marks (s : page) : list (option bool) := map (nav_links s) all_links.

(** The name index of a page and the number of fetches made for it. *)
Definition loaded_index (s : page) : json * nat := (_searchPokedex s, fetches s).

(** The container as [renderSearchResults] leaves it when there is nothing
    to show. *)
Definition hidden_box : results_box :=
  {| style_display := display_none; rows := []; aria_hidden := Some "true" |}.

(** ** Text with Greek letters

    The strings above hold code units below 256, where [toLowerCase] works
    one code unit at a time.  On the UTF-16 text that the script receives it
    does not: a capital sigma becomes the final small sigma when it ends a
    word and the small sigma otherwise (SpecialCasing, Final_Sigma).  For
    the statement that needs a sigma, the lines of the search are given
    again on texts of UTF-16 code units.  These definitions are given for
    the code units below 256 and the Greek letters U+0391-U+03A9 and
    U+03B1-U+03C9; about a text with another code unit they say nothing. *)

Module Wide.

Definition text : Type := list N.

(** A string of the model above as a text. *)
Definition of_string (s : string) : text :=
  map N_of_ascii (list_ascii_of_string s).

Definition isGreekCapital (c : N) : bool :=
  ((0x391 <=? c) && (c <=? 0x3A9) && negb (c =? 0x3A2))%N.

Definition isGreekSmall (c : N) : bool :=
  ((0x3B1 <=? c) && (c <=? 0x3C9))%N.

Definition isUpperCase (c : N) : bool :=
  if (c <? 256)%N then Js.isUpperCase (ascii_of_N c) else isGreekCapital c.

(** The small letter of a capital, 32 above it in both ranges; any other
    code unit is kept. *)
Definition toLowerCase_unit (c : N) : N :=
  if isUpperCase c then (c + 32)%N else c.

(** The property Cased: the letters, with the ordinal indicators and the
    micro sign. *)
Definition isCased (c : N) : bool :=
  if (c <? 256)%N then
    ((65 <=? c) && (c <=? 90) || (97 <=? c) && (c <=? 122)
     || (c =? 0xAA) || (c =? 0xB5) || (c =? 0xBA)
     || (0xC0 <=? c) && (c <=? 0xD6) || (0xD8 <=? c) && (c <=? 0xF6)
     || (0xF8 <=? c))%N
  else isGreekCapital c || isGreekSmall c.

(** The property Case_Ignorable: apostrophe, full stop, colon, circumflex,
    grave, diaeresis, soft hyphen, macron, acute, middle dot, cedilla. *)
Definition isCaseIgnorable (c : N) : bool :=
  existsb (N.eqb c) [0x27; 0x2E; 0x3A; 0x5E; 0x60; 0xA8; 0xAD; 0xAF; 0xB4; 0xB7; 0xB8]%N.

(** After a sigma: code units that case ignores, then a cased letter. *)
Fixpoint cased_follows (r : text) : bool :=
  match r with
  | [] => false
  | c :: r' => if isCaseIgnorable c then cased_follows r' else isCased c
  end.

(** [before] says that a cased letter comes before, with nothing between
    but code units that case ignores.  A capital sigma (U+03A3) with a
    cased letter before it and none after it becomes the final sigma
    (U+03C2). *)
Fixpoint toLowerCase_after (before : bool) (s : text) : text :=
  match s with
  | [] => []
  | c :: r =>
      (if (c =? 0x3A3)%N && before && negb (cased_follows r) then 0x3C2%N
       else toLowerCase_unit c)
      :: toLowerCase_after (if isCaseIgnorable c then before else isCased c) r
  end.

Definition toLowerCase (s : text) : text := toLowerCase_after false s.

Definition isWhiteSpace (c : N) : bool :=
  ((c <? 256) && Js.isWhiteSpace (ascii_of_N c))%N.

Fixpoint trimStart (s : text) : text :=
  match s with
  | [] => []
  | c :: r => if isWhiteSpace c then trimStart r else s
  end.

Fixpoint trimEnd (s : text) : text :=
  match s with
  | [] => []
  | c :: r =>
      match trimEnd r with
      | [] => if isWhiteSpace c then [] else [c]
      | r' => c :: r'
      end
  end.

Definition trim (s : text) : text := trimEnd (trimStart s).

Fixpoint startsWith (s p : text) {struct p} : bool :=
  match p, s with
  | [], _ => true
  | _ :: _, [] => false
  | a :: p', b :: s' => N.eqb a b && startsWith s' p'
  end.

Fixpoint includes (s sub : text) : bool :=
  startsWith s sub ||
  match s with
  | [] => false
  | _ :: r => includes r sub
  end.

(** Lines 62-63, for the keys [names] of the index. *)
Definition searchMatches (names : list text) (raw : text) : list text :=
  take 15 (List.filter (fun name => includes (toLowerCase name) raw) names).

(** Two texts that differ only in case: code unit by code unit they are
    equal, or one is a capital and the other is its small letter. *)
Inductive differ_only_in_case : text -> text -> Prop :=
| case_end : differ_only_in_case [] []
| case_same c r1 r2 :
    differ_only_in_case r1 r2 -> differ_only_in_case (c :: r1) (c :: r2)
| case_lower c r1 r2 :
    isUpperCase c = true ->
    differ_only_in_case r1 r2 ->
    differ_only_in_case (c :: r1) (toLowerCase_unit c :: r2)
| case_upper c r1 r2 :
    isUpperCase c = true ->
    differ_only_in_case r1 r2 ->
    differ_only_in_case (toLowerCase_unit c :: r1) (c :: r2).

(** The name and the query of the statement: capital sigma, capital alpha,
    capital sigma, and the same in small letters. *)
Definition SAS : text := [0x3A3; 0x391; 0x3A3]%N.
Definition sas : text := [0x3C3; 0x3B1; 0x3C3]%N.

End Wide.

(** A text without the characters that line 35 would write into the markup
    as more than text: the less-than sign, the ampersand, and the code units
    0 and 13, which the parser drops or replaces. *)
Definition isPlainChar (c : ascii) : bool :=
  negb (existsb (Ascii.eqb c) ["<"; "&"; ascii_of_N 0; ascii_of_N 13]%char).

Definition plain_name (name : string) : bool := every isPlainChar name.

(** * Properties *)

(** ** Strings *)
Example toLowerCase_CHAR : Js.toLowerCase "CHAR" = "char".
Proof. reflexivity. Qed.

Example trim_spaces : Js.trim "  Mr. Mime " = "Mr. Mime".
Proof. reflexivity. Qed.

Example split_path : Js.split "/" "/site/moves.html" = [""; "site"; "moves.html"].
Proof. reflexivity. Qed.

Example encode_name : Js.encodeURIComponent "Mr. Mime" = "Mr.%20Mime".
Proof. reflexivity. Qed.

Example decode_name : Js.decodeURIComponent "Mr.%20Mime" = Some "Mr. Mime".
Proof. reflexivity. Qed.

Example search_char :
  searchMatches pokedex3 (Js.toLowerCase (Js.trim "CHAR")) = ["Charmander"; "Charizard"].
Proof. reflexivity. Qed.

Example search_caps :
  evaluations
    (fold_left (fun s e => handle e s) [input_event 10 " Char"; idle 130]
       (loaded_page "/index.html" (serves pokedex3))) = [" Char"].
Proof. reflexivity. Qed.

Ltac each_char c := destruct c as [[] [] [] [] [] [] [] []].

Lemma append_assoc (a b c : string) : (a +:+ b) +:+ c = a +:+ (b +:+ c).
Proof. induction a as [|x a IH]; simpl; [reflexivity | now rewrite IH]. Qed.

Lemma startsWith_spec (s p : string) :
  Js.startsWith s p = true <-> exists r, s = p +:+ r.
Proof.
  revert s. induction p as [|a p IH]; intros s; simpl.
  - split; [intros _; now exists s | reflexivity].
  - destruct s as [|b s].
    + split; [discriminate | intros [r Hr]; discriminate].
    + rewrite andb_true_iff, IH, Ascii.eqb_eq. split.
      * intros [-> [r ->]]. now exists r.
      * intros [r Hr]. injection Hr as -> ->. split; [reflexivity | now exists r].
Qed.

Lemma includes_spec (s sub : string) :
  Js.includes s sub = true <-> is_substring sub s.
Proof.
  unfold is_substring. induction s as [|c s IH].
  - simpl. rewrite orb_false_r, startsWith_spec. split.
    + intros [r Hr]. now exists EmptyString, r.
    + intros [pre [post H]]. destruct pre; [now exists post | discriminate].
  - cbn [Js.includes]. rewrite orb_true_iff, startsWith_spec, IH. split.
    + intros [[r Hr] | [pre [post H]]].
      * now exists EmptyString, r.
      * exists (String c pre), post. simpl. now rewrite H.
    + intros [pre [post H]]. destruct pre as [|x pre].
      * left. now exists post.
      * right. simpl in H. injection H as -> ->. now exists pre, post.
Qed.

Lemma toLowerCase_char_idem (c : ascii) :
  Js.toLowerCase_char (Js.toLowerCase_char c) = Js.toLowerCase_char c.
Proof. each_char c; reflexivity. Qed.

Lemma isWhiteSpace_toLowerCase (c : ascii) :
  Js.isWhiteSpace (Js.toLowerCase_char c) = Js.isWhiteSpace c.
Proof. each_char c; reflexivity. Qed.

Lemma isEmpty_toLowerCase (s : string) :
  Js.isEmpty (Js.toLowerCase s) = Js.isEmpty s.
Proof. now destruct s. Qed.

Lemma toLowerCase_trimStart (s : string) :
  Js.toLowerCase (Js.trimStart s) = Js.trimStart (Js.toLowerCase s).
Proof.
  induction s as [|c s IH]; simpl; [reflexivity |].
  rewrite isWhiteSpace_toLowerCase. now destruct (Js.isWhiteSpace c).
Qed.

Lemma toLowerCase_trimEnd (s : string) :
  Js.toLowerCase (Js.trimEnd s) = Js.trimEnd (Js.toLowerCase s).
Proof.
  induction s as [|c s IH]; simpl; [reflexivity |].
  rewrite isWhiteSpace_toLowerCase, <- IH, isEmpty_toLowerCase.
  now destruct (Js.isWhiteSpace c && Js.isEmpty (Js.trimEnd s)).
Qed.

Lemma toLowerCase_trim (s : string) :
  Js.toLowerCase (Js.trim s) = Js.trim (Js.toLowerCase s).
Proof. unfold Js.trim. now rewrite toLowerCase_trimEnd, toLowerCase_trimStart. Qed.

Lemma differ_only_in_case_toLowerCase (a b : string) :
  differ_only_in_case a b -> Js.toLowerCase a = Js.toLowerCase b.
Proof.
  induction 1; simpl; rewrite ?toLowerCase_char_idem; congruence.
Qed.

Lemma whitespace_only_trimStart (s : string) :
  whitespace_only s = true -> Js.trimStart s = EmptyString.
Proof.
  induction s as [|c s IH]; simpl; [reflexivity |].
  destruct (Js.isWhiteSpace c); simpl; [exact IH | discriminate].
Qed.

Lemma whitespace_only_trim (s : string) :
  whitespace_only s = true -> Js.trim s = EmptyString.
Proof. intros H. unfold Js.trim. now rewrite whitespace_only_trimStart. Qed.

Lemma decode_encodeChar (c : ascii) (r : string) :
  Js.decodeURIComponent (Js.encodeChar c +:+ r) =
  option_map (String c) (Js.decodeURIComponent r).
Proof. each_char c; reflexivity. Qed.

Lemma decode_encode (s : string) :
  Js.decodeURIComponent (Js.encodeURIComponent s) = Some s.
Proof.
  induction s as [|c s IH]; simpl; [reflexivity |].
  now rewrite decode_encodeChar, IH.
Qed.

(** ** The loader *)

Ltac unfold_M :=
  unfold bind, try_catch, get, modify, ret, throw, check_ok, read_body,
    fetch_pokedex, console_warn, run in *.

Lemma loadSearchPokedex_cached (s : page) :
  truthy (_searchPokedex s) = true ->
  loadSearchPokedex s = (Returned (_searchPokedex s), s).
Proof. intros H. unfold loadSearchPokedex. unfold_M. now rewrite H. Qed.

Lemma loadSearchPokedex_served (s : page) (v : json) :
  truthy (_searchPokedex s) = false ->
  network s (fetches s) = serves v ->
  loadSearchPokedex s =
  (Returned v, set_searchPokedex v (set_fetches (S (fetches s)) s)).
Proof.
  intros H N. unfold loadSearchPokedex. unfold_M. rewrite H, N. reflexivity.
Qed.

Lemma loadSearchPokedex_failed (s : page) :
  truthy (_searchPokedex s) = false ->
  fetch_fails (network s (fetches s)) = true ->
  exists e : exn,
    loadSearchPokedex s =
    (Returned empty_object,
     set_searchPokedex empty_object
       (set_console
          (console s ++ [("Header search: could not load pokedex.json:", e)])
          (set_fetches (S (fetches s)) s))).
Proof.
  intros H F. unfold loadSearchPokedex. unfold_M. rewrite H.
  destruct (network s (fetches s)) as [|[[] [v|]]]; simpl in *;
    try discriminate; eexists; reflexivity.
Qed.

(** The loader returns in every case, with the value it leaves in the
    global; it touches the global, the fetch count and the console only. *)
Lemma loadSearchPokedex_returns (s : page) :
  exists (v : json) (s' : page),
    loadSearchPokedex s = (Returned v, s') /\ v = _searchPokedex s' /\
    s' = set_searchPokedex v (set_console (console s') (set_fetches (fetches s') s)).
Proof.
  destruct (truthy (_searchPokedex s)) eqn:H.
  - exists (_searchPokedex s), s. split; [now apply loadSearchPokedex_cached |].
    split; [reflexivity | now destruct s].
  - unfold loadSearchPokedex. unfold_M. rewrite H.
    destruct (network s (fetches s)) as [|[[] [v|]]]; simpl;
      eexists; eexists; (split; [reflexivity | split; reflexivity]).
Qed.

Lemma load_times_succ_r (n : nat) (s : page) :
  load_times (S n) s = load_times n (run loadSearchPokedex s).
Proof. unfold load_times. apply Nat.iter_succ_r. Qed.

Lemma load_times_fixed (n : nat) (s : page) :
  truthy (_searchPokedex s) = true -> load_times n s = s.
Proof.
  intros H. induction n as [|n IH]; [reflexivity |].
  unfold load_times in *. simpl. rewrite IH. unfold run.
  now rewrite loadSearchPokedex_cached.
Qed.

(** C4. The loader never throws: every call returns a value.  When the data
    has to be fetched and the fetch fails (it rejects, the response is not a
    success, or the body is not JSON), the error is caught, one warning is
    logged, and the call returns the empty mapping, which is also what it
    leaves in the global. *)
Theorem loadSearchPokedex_never_throws (s : page) :
  (exists (v : json) (s' : page), loadSearchPokedex s = (Returned v, s')) /\
  (truthy (_searchPokedex s) = false ->
   fetch_fails (network s (fetches s)) = true ->
   exists (e : exn) (s' : page),
     loadSearchPokedex s = (Returned empty_object, s') /\
     _searchPokedex s' = empty_object /\
     console s' =
       console s ++ [("Header search: could not load pokedex.json:", e)]).
Proof.
  split.
  - destruct (loadSearchPokedex_returns s) as (v & s' & E & _). eauto.
  - intros H F. destruct (loadSearchPokedex_failed s H F) as [e E].
    exists e. eexists. split; [exact E |]. split; reflexivity.
Qed.

Lemma loadSearchPokedex_never_throws_witness :
  exists (e : exn) (s' : page),
    loadSearchPokedex offline_page = (Returned empty_object, s') /\
    _searchPokedex s' = empty_object /\
    console s' =
      console offline_page ++ [("Header search: could not load pokedex.json:", e)].
Proof.
  apply (proj2 (loadSearchPokedex_never_throws offline_page)); reflexivity.
Defined.

(** C7, as the specification words it, fails: on a page whose data resource
    is the JSON text [null] the first call resolves, to [null], after one
    fetch, and the second call fetches again. *)
Lemma load_null_twice_fetches_twice :
  let s1 := run loadSearchPokedex null_page in
  loadSearchPokedex null_page = (Returned JNull, s1) /\
  fetches s1 = 1 /\
  fetches (run loadSearchPokedex s1) = 2.
Proof. repeat split. Qed.

(** C7, amended.  Once a call has returned a truthy value, every later call
    returns that same value and leaves the page as it is: no fetch, no
    warning.  A failed fetch is such a case: whatever the number of calls,
    the data is fetched once and every call returns the empty mapping. *)
Theorem loadSearchPokedex_fetches_once (s : page) :
  (forall (v : json) (s1 : page),
     loadSearchPokedex s = (Returned v, s1) ->
     truthy v = true ->
     forall n : nat,
       load_times n s1 = s1 /\
       loadSearchPokedex (load_times n s1) = (Returned v, s1)) /\
  (truthy (_searchPokedex s) = false ->
   fetch_fails (network s (fetches s)) = true ->
   forall n : nat,
     fetches (load_times (S n) s) = S (fetches s) /\
     fst (loadSearchPokedex (load_times (S n) s)) = Returned empty_object).
Proof.
  split.
  - intros v s1 E T n.
    destruct (loadSearchPokedex_returns s) as (v' & s' & E' & V & _).
    rewrite E in E'. injection E' as <- <-.
    assert (C : truthy (_searchPokedex s1) = true) by now rewrite <- V.
    rewrite (load_times_fixed n s1 C). split; [reflexivity |].
    rewrite V. now apply loadSearchPokedex_cached.
  - intros H F n. destruct (loadSearchPokedex_failed s H F) as [e E].
    rewrite load_times_succ_r. unfold run. rewrite E. cbn [snd].
    rewrite load_times_fixed by reflexivity.
    split; [reflexivity |]. now rewrite loadSearchPokedex_cached.
Qed.

Lemma loadSearchPokedex_fetches_once_witness :
  (load_times 3 (run loadSearchPokedex char_page) = run loadSearchPokedex char_page /\
   loadSearchPokedex (load_times 3 (run loadSearchPokedex char_page)) =
     (Returned pokedex3, run loadSearchPokedex char_page)) /\
  (fetches (load_times 4 offline_page) = S (fetches offline_page) /\
   fst (loadSearchPokedex (load_times 4 offline_page)) = Returned empty_object).
Proof.
  split.
  - exact (proj1 (loadSearchPokedex_fetches_once char_page)
             pokedex3 (run loadSearchPokedex char_page) eq_refl eq_refl 3).
  - exact (proj2 (loadSearchPokedex_fetches_once offline_page) eq_refl eq_refl 3).
Defined.

Lemma load_times_network (n : nat) (s : page) :
  network (load_times n s) = network s.
Proof.
  induction n as [|n IH]; [reflexivity |].
  unfold load_times in *. simpl. unfold run at 1.
  destruct (loadSearchPokedex_returns (Nat.iter n (run loadSearchPokedex) s))
    as (v & s' & E & _ & S').
  rewrite E. cbn [snd]. rewrite S'. simpl. exact IH.
Qed.

(** C10. While the global is falsy and the data resource parses to a falsy
    value [v] ([null], [false], [0], the empty string), every call fetches:
    after [n] calls there have been [n] more fetches.  The value is returned
    and stored as it is, no warning is logged and the empty mapping is not
    put in its place, so the global stays falsy. *)
Theorem falsy_data_is_fetched_again (s : page) (v : json) :
  truthy (_searchPokedex s) = false ->
  truthy v = false ->
  (forall i : nat, network s i = serves v) ->
  forall n : nat,
    fetches (load_times n s) = fetches s + n /\
    console (load_times n s) = console s /\
    truthy (_searchPokedex (load_times n s)) = false /\
    loadSearchPokedex (load_times n s) =
      (Returned v,
       set_searchPokedex v (set_fetches (S (fetches s + n)) (load_times n s))).
Proof.
  intros H V N n.
  assert (A : fetches (load_times n s) = fetches s + n /\
              console (load_times n s) = console s /\
              truthy (_searchPokedex (load_times n s)) = false).
  { induction n as [|n (F & C & T)].
    - simpl. now rewrite Nat.add_0_r.
    - change (load_times (S n) s) with (run loadSearchPokedex (load_times n s)).
      unfold run.
      rewrite (loadSearchPokedex_served _ v T)
        by (now rewrite load_times_network, N).
      simpl. rewrite F, C, V. split; [lia | now split]. }
  destruct A as (F & C & T). repeat split; try assumption.
  rewrite (loadSearchPokedex_served _ v T) by (now rewrite load_times_network, N).
  now rewrite F.
Qed.

Lemma falsy_data_is_fetched_again_witness :
  fetches (load_times 5 null_page) = 5.
Proof.
  apply (falsy_data_is_fetched_again null_page JNull eq_refl eq_refl
           (fun _ => eq_refl) 5).
Defined.

(** ** The active link *)

Lemma split_nonempty (sep : ascii) (s : string) : Js.split sep s <> [].
Proof.
  destruct s as [|c s]; simpl; [discriminate |].
  destruct (Ascii.eqb c sep); [discriminate |].
  destruct (Js.split sep s); discriminate.
Qed.

Lemma split_no_slash (file : string) :
  no_slash file = true -> Js.split "/" file = [file].
Proof.
  induction file as [|c file IH]; simpl; [reflexivity |].
  destruct (Ascii.eqb c "/"); simpl; [discriminate |].
  intros H. now rewrite IH.
Qed.

Lemma split_app (a b : string) :
  Js.split "/" (a +:+ String "/" b) = Js.split "/" a ++ Js.split "/" b.
Proof.
  induction a as [|c a IH]; simpl; [reflexivity |].
  destruct (Ascii.eqb c "/"); simpl; [now rewrite IH |].
  rewrite IH. pose proof (split_nonempty "/" a) as N.
  destruct (Js.split "/" a); [contradiction | reflexivity].
Qed.

Lemma pop_app (a b : list string) : b <> [] -> Js.pop (a ++ b) = Js.pop b.
Proof.
  intros N. induction a as [|x a IH]; [reflexivity |].
  simpl. rewrite IH. destruct (a ++ b) eqn:E; [| reflexivity].
  apply app_eq_nil in E. destruct E as [_ ->]. contradiction.
Qed.

(** The file name of a page is the part of its path after the last slash,
    and [index.html] when that part is empty. *)
Lemma current_path_last_segment (s : page) (dir file : string) :
  pathname s = dir +:+ String "/" file ->
  no_slash file = true ->
  current_path s = Js.or_default (Some file) "index.html".
Proof.
  intros P N. unfold current_path.
  rewrite P, split_app, pop_app by apply split_nonempty.
  now rewrite split_no_slash.
Qed.

Lemma current_path_not_empty (s : page) : String.eqb (current_path s) "" = false.
Proof.
  unfold current_path.
  destruct (Js.pop (Js.split "/" (pathname s))) as [[|c r]|]; reflexivity.
Qed.

Lemma startsWith_trainers (s : string) :
  Js.startsWith s "trainers" = true -> Js.startsWith s "trainer" = true.
Proof.
  rewrite !startsWith_spec. intros [r ->]. now exists (String "s" r).
Qed.

Lemma nav_links_cleared (s : page) (k : nav_link) :
  nav_links (fold_left (fun s id => classList_remove_active id s) all_links s) k =
  option_map (fun _ => false) (nav_links s k).
Proof. destruct k; simpl; destruct (nav_links s _); reflexivity. Qed.

Lemma nav_links_added (id : nav_link) (s : page) (k : nav_link) :
  nav_links (classList_add_active id s) k =
  if nav_link_eqb k id then option_map (fun _ => true) (nav_links s k)
  else nav_links s k.
Proof. reflexivity. Qed.

(** The link that [setActiveHeaderLink] marks, for the file name [path]. *)
Lemma setActiveHeaderLink_marks (s : page) (k : nav_link) :
  nav_links (setActiveHeaderLink s) k =
  option_map (fun _ => nav_link_eqb k (active_link (current_path s))) (nav_links s k).
Proof.
  unfold setActiveHeaderLink, active_link.
  rewrite current_path_not_empty, orb_false_r.
  set (path := current_path s).
  destruct (Js.startsWith path "trainers") eqn:T.
  - rewrite (startsWith_trainers _ T), !orb_true_r.
    repeat match goal with
           | |- context [if ?b then _ else _] => destruct b
           end;
      rewrite nav_links_added, nav_links_cleared;
      destruct k, (nav_links s _); reflexivity.
  - rewrite !orb_false_r.
    repeat match goal with
           | |- context [if ?b then _ else _] => destruct b
           end;
      rewrite nav_links_added, nav_links_cleared;
      destruct k, (nav_links s _); reflexivity.
Qed.

(** C2, as the specification words it, fails: on [move-descriptions.html]
    the rules of the specification give the moves link, and on
    [trainer.html] the pokedex link; the script marks the pokedex link on
    the first and the locations link on the second. *)
Lemma claimed_prefixes_differ :
  let s := setActiveHeaderLink (linked_page "/move-descriptions.html") in
  let s' := setActiveHeaderLink (linked_page "/trainer.html") in
  (claimed_active_link "move-descriptions.html" = link_moves /\
   nav_links s link_moves = Some false /\
   nav_links s link_pokedex = Some true) /\
  (claimed_active_link "trainer.html" = link_pokedex /\
   nav_links s' link_pokedex = Some false /\
   nav_links s' link_locations = Some true).
Proof. repeat split. Qed.

(** C2, amended.  [setActiveHeaderLink] depends on the file name of the page
    only, the part of the path after the last slash, or [index.html] when
    that part is empty.  Of the five links that are in the document it
    leaves exactly one marked, the one that the prefix rules give in this
    order: [info] gives the info link; [index] the pokedex link; [moves] or
    [movedescriptions] the moves link; [locations], [trainer] or
    [encounters] the locations link; [abilities] the abilities link; any
    other name the pokedex link.  A link that is not in the document stays
    absent. *)
Theorem setActiveHeaderLink_prefix_rules (s : page) (dir file : string) :
  pathname s = dir +:+ String "/" file ->
  no_slash file = true ->
  forall k : nav_link,
    nav_links (setActiveHeaderLink s) k =
    option_map
      (fun _ => nav_link_eqb k (active_link (Js.or_default (Some file) "index.html")))
      (nav_links s k).
Proof.
  intros P N k.
  rewrite <- (current_path_last_segment s dir file P N).
  apply setActiveHeaderLink_marks.
Qed.

Lemma setActiveHeaderLink_prefix_rules_witness :
  map (nav_links (setActiveHeaderLink (linked_page "/site/moves.html"))) all_links =
  [Some false; Some false; Some true; Some false; Some false].
Proof.
  unfold all_links, map.
  rewrite !(setActiveHeaderLink_prefix_rules
              (linked_page "/site/moves.html") "/site" "moves.html" eq_refl eq_refl).
  reflexivity.
Defined.

(** ** The search *)

Lemma filter_sublist {A : Type} (f : A -> bool) (l : list A) :
  List.filter f l `sublist_of` l.
Proof.
  induction l as [|x l IH]; simpl; [constructor |].
  destruct (f x); now constructor.
Qed.

Lemma Forall_filter {A : Type} (f : A -> bool) (l : list A) :
  Forall (fun x => f x = true) (List.filter f l).
Proof.
  induction l as [|x l IH]; simpl; [constructor |].
  destruct (f x) eqn:E; [now constructor | exact IH].
Qed.

(** The names that [searchMatches] gives, for any index and any query. *)
Lemma searchMatches_spec (pokedex : json) (raw : string) :
  let keys := Object_keys (or_empty_object pokedex) in
  let ml := searchMatches pokedex raw in
  Forall (fun name => is_substring raw (Js.toLowerCase name)) ml /\
  length ml <= 15 /\
  ml `sublist_of` keys /\
  exists rest : list string,
    List.filter (fun name => Js.includes (Js.toLowerCase name) raw) keys = ml ++ rest.
Proof.
  intros keys ml. unfold ml, searchMatches. fold keys.
  set (found := List.filter _ keys). repeat split.
  - apply Forall_take. unfold found.
    eapply Forall_impl; [apply Forall_filter |].
    intros name H. now apply includes_spec.
  - rewrite length_take. lia.
  - transitivity found; [apply sublist_take | apply filter_sublist].
  - exists (drop 15 found). now rewrite take_drop.
Qed.

Lemma timeout_blank (s : page) (v : string) :
  search s = Some v ->
  Js.trim v = EmptyString ->
  run searchPokemon_timeout s = renderSearchResults None (log_evaluation v s).
Proof.
  intros S T. unfold searchPokemon_timeout. unfold_M. now rewrite S, T.
Qed.

Lemma timeout_query (s : page) (v : string) :
  search s = Some v ->
  Js.trim v <> EmptyString ->
  exists (index : json) (s1 : page),
    loadSearchPokedex (log_evaluation v s) = (Returned index, s1) /\
    index = _searchPokedex s1 /\
    run searchPokemon_timeout s =
    renderSearchResults
      (Some (searchMatches index (Js.toLowerCase (Js.trim v)))) s1.
Proof.
  intros S T.
  destruct (loadSearchPokedex_returns (log_evaluation v s)) as (index & s1 & E & V & _).
  exists index, s1. split; [exact E |]. split; [exact V |].
  unfold searchPokemon_timeout. unfold_M. rewrite S.
  rewrite isEmpty_toLowerCase.
  destruct (Js.trim v); [contradiction |]. cbn [Js.isEmpty]. now rewrite E.
Qed.

Lemma rendered_rows (ml : list string) (s : page) (box : results_box) :
  search_results s = Some box ->
  option_map rows (search_results (renderSearchResults (Some ml) s)) =
  Some (map rendered_row ml).
Proof.
  intros B. unfold renderSearchResults. rewrite B.
  destruct ml as [|name ml]; [reflexivity |].
  cbn -[map]. now rewrite map_map.
Qed.

Lemma render_searchPokedex (m : option (list string)) (s : page) :
  _searchPokedex (renderSearchResults m s) = _searchPokedex s.
Proof.
  unfold renderSearchResults.
  destruct (search_results s); [| reflexivity].
  destruct m as [[|? ?]|]; reflexivity.
Qed.

Lemma render_fetches (m : option (list string)) (s : page) :
  fetches (renderSearchResults m s) = fetches s.
Proof.
  unfold renderSearchResults.
  destruct (search_results s); [| reflexivity].
  destruct m as [[|? ?]|]; reflexivity.
Qed.

(** What the loader returns depends on the global, the network and the
    number of fetches so far, and on nothing else in the page. *)
Lemma loadSearchPokedex_value (s t : page) :
  _searchPokedex s = _searchPokedex t ->
  network s = network t ->
  fetches s = fetches t ->
  fst (loadSearchPokedex s) = fst (loadSearchPokedex t).
Proof.
  intros C N F. unfold loadSearchPokedex. unfold_M. rewrite C.
  destruct (truthy (_searchPokedex t)); [reflexivity |].
  cbv beta. rewrite N, F.
  destruct (network t (fetches t)) as [|[[] [v|]]]; reflexivity.
Qed.

Lemma loadSearchPokedex_search_results (s : page) :
  search_results (snd (loadSearchPokedex s)) = search_results s.
Proof.
  destruct (loadSearchPokedex_returns s) as (v & s' & E & _ & S').
  rewrite E. cbn [snd]. now rewrite S'.
Qed.

Example wide_lower_sigma :
  Wide.toLowerCase Wide.SAS = [0x3C3; 0x3B1; 0x3C2]%N /\
  Wide.toLowerCase Wide.sas = Wide.sas /\
  Wide.toLowerCase (Wide.of_string "Mr. MIME") = Wide.of_string "mr. mime".
Proof. repeat split. Qed.

Lemma wide_unit_latin1 (c : ascii) :
  Wide.toLowerCase_unit (N_of_ascii c) = N_of_ascii (Js.toLowerCase_char c) /\
  (N_of_ascii c =? 0x3A3)%N = false.
Proof. each_char c; split; reflexivity. Qed.

(** On the strings of the model above the two [toLowerCase] agree. *)
Lemma wide_toLowerCase_of_string (s : string) :
  Wide.toLowerCase (Wide.of_string s) = Wide.of_string (Js.toLowerCase s).
Proof.
  unfold Wide.toLowerCase. generalize false as before.
  induction s as [|c s IH]; intros before; [reflexivity |].
  unfold Wide.of_string in *. cbn [list_ascii_of_string map Js.toLowerCase
    Wide.toLowerCase_after].
  destruct (wide_unit_latin1 c) as [U S]. rewrite S, U, IH. reflexivity.
Qed.

(** C1, as the specification words it, fails on text with a sigma.  The
    index has the one key capital sigma, capital alpha, capital sigma.  The
    query in small letters differs from the key in case only; lower-cased,
    the key ends in the final sigma and the query does not.  So the key
    itself as a query finds the key, and the query in small letters finds
    nothing. *)
Lemma sigma_queries_match_differently :
  Wide.differ_only_in_case Wide.SAS Wide.sas /\
  Wide.searchMatches [Wide.SAS] (Wide.toLowerCase (Wide.trim Wide.SAS)) = [Wide.SAS] /\
  Wide.searchMatches [Wide.SAS] (Wide.toLowerCase (Wide.trim Wide.sas)) = [].
Proof.
  split; [| split; reflexivity].
  apply (Wide.case_lower 0x3A3%N); [reflexivity |].
  apply (Wide.case_lower 0x391%N); [reflexivity |].
  apply (Wide.case_lower 0x3A3%N); [reflexivity |].
  apply Wide.case_end.
Qed.

(** C1, amended.  When the callback runs on a text that is not blank, it
    loads the index and calls [renderSearchResults] on a list of names such
    that: each name, lower-cased, has the lower-cased trimmed text as a
    substring; there are at most 15 of them; they are keys of the loaded
    index in the order of its keys, and they are the first of the keys that
    match.  Matching lower-cases both sides: a text with the same trimmed
    lower-cased form gives the same container, and so does, on these strings
    of code units below 256, a text that differs from the first one in case
    only. *)
Theorem rendered_matches (s : page) (value : string) (box : results_box) :
  search s = Some value ->
  search_results s = Some box ->
  Js.trim value <> EmptyString ->
  let raw := Js.toLowerCase (Js.trim value) in
  exists (ml : list string) (s1 : page),
    loadSearchPokedex (log_evaluation value s) = (Returned (_searchPokedex s1), s1) /\
    run searchPokemon_timeout s = renderSearchResults (Some ml) s1 /\
    Forall (fun name => is_substring raw (Js.toLowerCase name)) ml /\
    length ml <= 15 /\
    ml `sublist_of` Object_keys (or_empty_object (_searchPokedex s1)) /\
    (exists rest : list string,
       List.filter (fun name => Js.includes (Js.toLowerCase name) raw)
         (Object_keys (or_empty_object (_searchPokedex s1)))
       = ml ++ rest) /\
    (forall value' : string,
       Js.toLowerCase (Js.trim value') = raw ->
       search_results (run searchPokemon_timeout (set_search (Some value') s)) =
       search_results (run searchPokemon_timeout s)) /\
    (forall value' : string,
       differ_only_in_case value value' ->
       search_results (run searchPokemon_timeout (set_search (Some value') s)) =
       search_results (run searchPokemon_timeout s)).
Proof.
  intros S B T raw.
  destruct (timeout_query s value S T) as (index & s1 & E & V & R).
  assert (B1 : search_results s1 = Some box).
  { change s1 with (snd (Returned index, s1)). rewrite <- E.
    now rewrite loadSearchPokedex_search_results. }
  assert (G : forall value' : string,
             Js.toLowerCase (Js.trim value') = raw ->
             search_results (run searchPokemon_timeout (set_search (Some value') s)) =
             search_results (run searchPokemon_timeout s)).
  { intros value' L'.
    assert (T' : Js.trim value' <> EmptyString).
    { intros Z. rewrite Z in L'. unfold raw in L'.
      destruct (Js.trim value); [contradiction | discriminate]. }
    destruct (timeout_query (set_search (Some value') s) value' eq_refl T')
      as (index' & s1' & E' & V' & R').
    assert (I : index' = index).
    { pose proof (loadSearchPokedex_value
                    (log_evaluation value' (set_search (Some value') s))
                    (log_evaluation value s) eq_refl eq_refl eq_refl) as Q.
      rewrite E, E' in Q. now injection Q. }
    assert (B1' : search_results s1' = Some box).
    { change s1' with (snd (Returned index', s1')). rewrite <- E'.
      now rewrite loadSearchPokedex_search_results. }
    rewrite R, R', L', I. unfold renderSearchResults.
    rewrite B1, B1'. fold raw. now destruct (searchMatches index raw). }
  exists (searchMatches index raw), s1.
  destruct (searchMatches_spec index raw) as (F & L & U & P).
  rewrite <- V. repeat split; try assumption.
  intros value' D. apply G. unfold raw. rewrite !toLowerCase_trim.
  now rewrite (differ_only_in_case_toLowerCase _ _ D).
Qed.

Lemma rendered_matches_witness :
  let s := type_text "CHAR" (loaded_page "/index.html" (serves pokedex3)) in
  exists (ml : list string) (s1 : page),
    loadSearchPokedex (log_evaluation "CHAR" s) = (Returned (_searchPokedex s1), s1) /\
    run searchPokemon_timeout s = renderSearchResults (Some ml) s1 /\
    Forall (fun name => is_substring "char" (Js.toLowerCase name)) ml /\
    length ml <= 15 /\
    ml `sublist_of` Object_keys (or_empty_object (_searchPokedex s1)) /\
    (exists rest : list string,
       List.filter (fun name => Js.includes (Js.toLowerCase name) "char")
         (Object_keys (or_empty_object (_searchPokedex s1)))
       = ml ++ rest) /\
    (forall value' : string,
       Js.toLowerCase (Js.trim value') = "char" ->
       search_results (run searchPokemon_timeout (set_search (Some value') s)) =
       search_results (run searchPokemon_timeout s)) /\
    (forall value' : string,
       differ_only_in_case "CHAR" value' ->
       search_results (run searchPokemon_timeout (set_search (Some value') s)) =
       search_results (run searchPokemon_timeout s)).
Proof.
  intros s.
  exact (rendered_matches s "CHAR"
           {| style_display := display_none; rows := [];
              aria_hidden := Some "true" |}
           eq_refl eq_refl ltac:(discriminate)).
Defined.

(** C8. When the callback runs on a text that is empty or made of white
    space only, the container ends up empty, with [display] none and
    [aria-hidden] true; the data is not fetched and the global is left as it
    is. *)
Theorem blank_query_hides_results (s : page) (value : string) (box : results_box) :
  search s = Some value ->
  search_results s = Some box ->
  whitespace_only value = true ->
  let s' := run searchPokemon_timeout s in
  search_results s' =
    Some {| style_display := display_none; rows := [];
            aria_hidden := Some "true" |} /\
  fetches s' = fetches s /\
  _searchPokedex s' = _searchPokedex s.
Proof.
  intros S B W s'. unfold s'.
  rewrite (timeout_blank s value S (whitespace_only_trim value W)).
  unfold renderSearchResults, log_evaluation. simpl. rewrite B. now simpl.
Qed.

Lemma blank_query_hides_results_witness :
  let s := type_text "   "
             (run searchPokemon_timeout
                (type_text "char" (loaded_page "/index.html" (serves pokedex3)))) in
  search_results (run searchPokemon_timeout s) =
    Some {| style_display := display_none; rows := [];
            aria_hidden := Some "true" |} /\
  fetches (run searchPokemon_timeout s) = fetches s /\
  _searchPokedex (run searchPokemon_timeout s) = _searchPokedex s.
Proof.
  intros s.
  exact (blank_query_hides_results s "   "
           (with_aria_hidden "false"
              (with_display display_block
                 (with_rows (map rendered_row ["Charmander"; "Charizard"])
                    {| style_display := display_none; rows := [];
                       aria_hidden := Some "true" |})))
           eq_refl eq_refl eq_refl).
Defined.

(** ** The Enter key *)

Lemma click_away_navigations (target : click_target) (s : page) :
  navigations (click_away target s) = navigations s.
Proof.
  unfold click_away.
  destruct (search_results s), (search s); try reflexivity.
  now destruct (negb (box_contains target) && not_search_input target).
Qed.

Lemma click_listeners_navigations (target : click_target)
    (ls : list click_listener) (s : page) :
  navigations
    (fold_left
       (fun s l => match l with click_away_listener => click_away target s end)
       ls s) = navigations s.
Proof.
  revert s. induction ls as [|[] ls IH]; intros s; simpl; [reflexivity |].
  now rewrite IH, click_away_navigations.
Qed.

(** A click on a row that [renderSearchResults] made opens the page of its
    name. *)
Lemma click_rendered_row (i : nat) (name : string) (s : page) (box : results_box) :
  search_results s = Some box ->
  rows box !! i = Some (rendered_row name) ->
  navigations (dispatch_click (on_result i) s) = navigations s ++ [detail_url name].
Proof.
  intros B R. unfold dispatch_click. rewrite click_listeners_navigations.
  rewrite B, R.
  unfold rendered_row, add_onclick, result_html, run, result_onclick.
  cbn [data_name row_onclick]. now rewrite decode_encode.
Qed.

(** C5. With the keydown listener of the script on the input, pressing Enter
    does this.  When the container has a row, it clicks the first row, and
    when that row was made by [renderSearchResults] for a name, the page of
    that name is opened: [pokemon.html?name=] and the encoded name.
    Otherwise, when the trimmed text of the input is not empty, the page of
    that text is opened.  Otherwise nothing happens. *)
Theorem enter_key_navigates (s : page) (value : string) :
  search s = Some value ->
  search_onkeydown s = [enter_key_listener] ->
  let s' := press_key "Enter" s in
  (forall r : result_row,
     first_result s = Some r ->
     s' = dispatch_click (on_result 0) s /\
     forall name : string,
       r = rendered_row name ->
       navigations s' =
       navigations s ++ ["pokemon.html?name=" +:+ Js.encodeURIComponent name]) /\
  (first_result s = None ->
   Js.trim value <> EmptyString ->
   navigations s' =
   navigations s ++ ["pokemon.html?name=" +:+ Js.encodeURIComponent (Js.trim value)]) /\
  (first_result s = None -> Js.trim value = EmptyString -> s' = s).
Proof.
  intros S K s'. unfold s', press_key, dispatch_keydown. rewrite S, K.
  cbn [fold_left]. unfold enter_key. cbn [String.eqb Ascii.eqb Bool.eqb].
  split; [| split].
  - intros r F. rewrite F. split; [reflexivity |].
    intros name ->. unfold first_result in F.
    destruct (search_results s) as [box|] eqn:B; [| discriminate].
    apply (click_rendered_row 0 name s box B). now rewrite <- head_lookup.
  - intros F T. rewrite F, S. destruct (Js.trim value); [contradiction | reflexivity].
  - intros F T. now rewrite F, S, T.
Qed.

Lemma enter_key_navigates_witness :
  navigations (press_key "Enter" mime_page) = ["pokemon.html?name=Mr.%20Mime"].
Proof.
  apply (proj2 (proj1 (enter_key_navigates mime_page "mr" eq_refl eq_refl)
                  (rendered_row "Mr. Mime") eq_refl) "Mr. Mime" eq_refl).
Defined.

(** ** The debounce timer *)

Lemma same_timers_refl (s : page) : same_timers s s.
Proof. unfold same_timers. tauto. Qed.

Lemma same_timers_trans (s t u : page) :
  same_timers s t -> same_timers t u -> same_timers s u.
Proof.
  unfold same_timers.
  intros (A1 & A2 & A3 & A4 & A5 & A6 & A7) (B1 & B2 & B3 & B4 & B5 & B6 & B7).
  repeat split; try congruence. auto.
Qed.

Lemma same_timers_render (m : option (list string)) (s : page) :
  same_timers s (renderSearchResults m s).
Proof.
  unfold renderSearchResults.
  destruct (search_results s) as [box|] eqn:B; [| apply same_timers_refl].
  destruct m as [[|name names]|]; unfold same_timers; simpl;
    repeat split; eauto.
Qed.

Lemma same_timers_load (s : page) : same_timers s (snd (loadSearchPokedex s)).
Proof.
  destruct (loadSearchPokedex_returns s) as (v & s' & E & _ & S').
  rewrite E. cbn [snd]. rewrite S'. unfold same_timers. simpl. tauto.
Qed.

Lemma same_timers_timeout (s : page) : same_timers s (run searchPokemon_timeout s).
Proof.
  unfold searchPokemon_timeout. unfold_M.
  destruct (search s) as [v|] eqn:S; [| apply same_timers_refl].
  assert (L : same_timers s (log_evaluation v s))
    by (unfold same_timers; simpl; tauto).
  destruct (Js.isEmpty (Js.toLowerCase (Js.trim v))).
  - eapply same_timers_trans; [exact L | apply same_timers_render].
  - pose proof (same_timers_load (log_evaluation v s)) as Q.
    destruct (loadSearchPokedex (log_evaluation v s)) as [[index|e] s1];
      cbn [snd] in *.
    + eapply same_timers_trans; [exact L |].
      eapply same_timers_trans; [exact Q | apply same_timers_render].
    + eapply same_timers_trans; [exact L | exact Q].
Qed.

Lemma render_evaluations (m : option (list string)) (s : page) :
  evaluations (renderSearchResults m s) = evaluations s.
Proof.
  unfold renderSearchResults.
  destruct (search_results s); [| reflexivity].
  destruct m as [[|? ?]|]; reflexivity.
Qed.

Lemma load_evaluations (s : page) :
  evaluations (snd (loadSearchPokedex s)) = evaluations s.
Proof.
  destruct (loadSearchPokedex_returns s) as (v & s' & E & _ & S').
  rewrite E. cbn [snd]. now rewrite S'.
Qed.

(** The callback reads the text of the input once. *)
Lemma timeout_evaluations (s : page) (v : string) :
  search s = Some v ->
  evaluations (run searchPokemon_timeout s) = evaluations s ++ [v].
Proof.
  intros S. unfold searchPokemon_timeout. unfold_M. rewrite S.
  destruct (Js.isEmpty (Js.toLowerCase (Js.trim v))).
  - cbv beta iota. cbn [snd]. now rewrite render_evaluations.
  - cbv beta iota.
    pose proof (load_evaluations (log_evaluation v s)) as Q.
    destruct (loadSearchPokedex (log_evaluation v s)) as [[index|e] s1];
      cbn [snd] in *; [rewrite render_evaluations |]; exact Q.
Qed.

(** Each call of [searchPokemon] cancels the pending timer and sets a new
    one, due 120 ms later. *)
Lemma searchPokemon_reschedules (s : page) :
  is_Some (search s) ->
  is_Some (search_results s) ->
  debounce_ok s ->
  timers (searchPokemon s) = [(next_handle s, (now s + 120)%Z)] /\
  _searchDebounceTimer (searchPokemon s) = Some (next_handle s) /\
  now (searchPokemon s) = now s /\
  search (searchPokemon s) = search s /\
  search_results (searchPokemon s) = search_results s /\
  search_oninput (searchPokemon s) = search_oninput s /\
  evaluations (searchPokemon s) = evaluations s.
Proof.
  intros [v S] [box B] D. unfold searchPokemon. rewrite S, B.
  destruct D as [D | (h & due & D & G)].
  - destruct (_searchDebounceTimer s) as [h|]; simpl; rewrite ?D; simpl;
      now rewrite ?S, ?B.
  - rewrite G. simpl. rewrite D. simpl. rewrite Pos.eqb_refl. simpl.
    now rewrite S, B.
Qed.

Lemma advance_to_early (t : Z) (s : page) :
  Forall (fun u => (t < snd u)%Z) (timers s) ->
  advance_to t s = set_now (Z.max t (now s)) s.
Proof.
  intros F. unfold advance_to.
  replace (List.filter _ (timers s)) with (@nil (positive * Z)); [reflexivity |].
  induction F as [|u l H F IH]; [reflexivity |]. simpl.
  destruct (Z.leb_spec (snd u) t); [lia | exact IH].
Qed.

Lemma advance_to_due (t : Z) (h : positive) (due : Z) (s : page) :
  timers s = [(h, due)] ->
  (due <= t)%Z ->
  advance_to t s =
  set_now (Z.max t (now (run searchPokemon_timeout (set_timers [] s))))
    (run searchPokemon_timeout (set_timers [] s)).
Proof.
  intros D L. unfold advance_to. rewrite D. simpl.
  destruct (Z.leb_spec due t); [| lia]. simpl. unfold fire. rewrite D. simpl.
  now rewrite Pos.eqb_refl.
Qed.

(** A keystroke on a page with the input, the container and the listener,
    after which the page is [armed]; the callback has run before it if it
    was due. *)
Lemma keystroke_arms (t : Z) (v : string) (s : page) :
  is_Some (search s) ->
  is_Some (search_results s) ->
  search_oninput s = [searchPokemon_listener] ->
  debounce_ok s ->
  (now s <= t)%Z ->
  armed t v (keystroke (t, v) s) /\
  evaluations (keystroke (t, v) s) = evaluations (advance_to t s).
Proof.
  intros S B L D N. unfold keystroke. cbn [fst snd].
  assert (A : let s0 := advance_to t s in
              is_Some (search s0) /\ is_Some (search_results s0) /\
              search_oninput s0 = [searchPokemon_listener] /\
              debounce_ok s0 /\ now s0 = t).
  { destruct D as [D | (h & due & D & G)].
    - rewrite advance_to_early by (rewrite D; constructor).
      simpl. repeat split; try assumption; [now left | lia].
    - destruct (Z.le_gt_cases due t) as [Le | Gt].
      + rewrite (advance_to_due t h due s D Le).
        destruct (same_timers_timeout (set_timers [] s))
          as (T1 & T2 & T3 & T4 & T5 & T6 & T7).
        simpl in *. rewrite T5, T6. repeat split; auto.
        * left. exact T1.
        * rewrite T3. lia.
      + rewrite advance_to_early by (rewrite D; repeat constructor; simpl; lia).
        simpl. repeat split; try assumption; [| lia].
        right. now exists h, due. }
  cbv zeta in A. destruct A as (S0 & B0 & L0 & D0 & N0).
  remember (advance_to t s) as s0 eqn:Hs0. clear Hs0.
  unfold type_text. destruct S0 as [v0 S0]. rewrite S0.
  unfold dispatch_input. cbn [search_oninput set_search]. rewrite L0. cbn [fold_left].
  destruct (searchPokemon_reschedules (set_search (Some v) s0))
    as (P1 & P2 & P3 & P4 & P5 & P6 & P7); simpl; eauto.
  unfold armed. rewrite P1, P2, P3, P4, P5, P6, P7. simpl.
  rewrite N0. repeat split; eauto.
Qed.

(** *** The pending timer in every page the events lead to *)

Lemma same_timers_debounce_ok (s t : page) :
  same_timers s t -> debounce_ok s -> debounce_ok t.
Proof.
  intros (T1 & T2 & _) [D | (h & due & D & G)]; unfold debounce_ok.
  - left. congruence.
  - right. exists h, due. split; congruence.
Qed.

Lemma same_timers_click_away (target : click_target) (s : page) :
  same_timers s (click_away target s).
Proof.
  unfold click_away.
  destruct (search_results s) as [box|] eqn:B, (search s) as [v|] eqn:S;
    try apply same_timers_refl.
  destruct (negb (box_contains target) && not_search_input target);
    [| apply same_timers_refl].
  unfold same_timers. simpl. repeat split; eauto.
Qed.

Lemma same_timers_click_listeners (target : click_target)
    (ls : list click_listener) (s : page) :
  same_timers s
    (fold_left
       (fun s l => match l with click_away_listener => click_away target s end)
       ls s).
Proof.
  revert s. induction ls as [|[] ls IH]; intros s; [apply same_timers_refl |].
  eapply same_timers_trans; [apply same_timers_click_away | apply IH].
Qed.

Lemma same_timers_navigate (url : string) (s : page) :
  same_timers s (navigate url s).
Proof. unfold same_timers. simpl. tauto. Qed.

Lemma same_timers_result_onclick (r : result_row) (s : page) :
  same_timers s (run (result_onclick r) s).
Proof.
  unfold result_onclick, run.
  destruct (Js.decodeURIComponent (data_name r));
    [apply same_timers_navigate | apply same_timers_refl].
Qed.

Lemma same_timers_dispatch_click (target : click_target) (s : page) :
  same_timers s (dispatch_click target s).
Proof.
  unfold dispatch_click.
  eapply same_timers_trans; [| apply same_timers_click_listeners].
  destruct target as [|i| |]; try apply same_timers_refl.
  destruct (search_results s) as [box|]; [| apply same_timers_refl].
  destruct (rows box !! i) as [r|]; [| apply same_timers_refl].
  destruct (row_onclick r);
    [apply same_timers_result_onclick | apply same_timers_refl].
Qed.

Lemma same_timers_enter_key (key : string) (s : page) :
  same_timers s (enter_key key s).
Proof.
  unfold enter_key.
  destruct (String.eqb key "Enter"); [| apply same_timers_refl].
  destruct (first_result s); [apply same_timers_dispatch_click |].
  destruct (search s) as [v|]; [| apply same_timers_refl].
  destruct (negb (Js.isEmpty (Js.trim v)));
    [apply same_timers_navigate | apply same_timers_refl].
Qed.

Lemma same_timers_press_key (key : string) (s : page) :
  same_timers s (press_key key s).
Proof.
  unfold press_key, dispatch_keydown.
  destruct (search s); [| apply same_timers_refl].
  generalize (search_onkeydown s) as ls. intros ls. revert s.
  induction ls as [|[] ls IH]; intros s; [apply same_timers_refl |].
  eapply same_timers_trans; [apply same_timers_enter_key | apply IH].
Qed.

Lemma debounce_ok_searchPokemon (s : page) :
  debounce_ok s -> debounce_ok (searchPokemon s).
Proof.
  intros D.
  destruct (search s) as [v|] eqn:S, (search_results s) as [box|] eqn:B;
    try (unfold searchPokemon; rewrite S, ?B; exact D).
  destruct (searchPokemon_reschedules s) as (P1 & P2 & _); eauto.
  right. now exists (next_handle s), (now s + 120)%Z.
Qed.

Lemma debounce_ok_input_listeners (ls : list input_listener) (s : page) :
  debounce_ok s ->
  debounce_ok
    (fold_left
       (fun s l => match l with searchPokemon_listener => searchPokemon s end)
       ls s).
Proof.
  revert s. induction ls as [|[] ls IH]; intros s D; [exact D |].
  apply IH. now apply debounce_ok_searchPokemon.
Qed.

Lemma debounce_ok_type_text (v : string) (s : page) :
  debounce_ok s -> debounce_ok (type_text v s).
Proof.
  intros D. unfold type_text, dispatch_input.
  destruct (search s); [| exact D].
  apply debounce_ok_input_listeners. exact D.
Qed.

Lemma debounce_ok_advance_to (t : Z) (s : page) :
  debounce_ok s -> debounce_ok (advance_to t s).
Proof.
  intros [D | (h & due & D & G)].
  - rewrite advance_to_early by (rewrite D; constructor). now left.
  - destruct (Z.le_gt_cases due t) as [Le | Gt].
    + rewrite (advance_to_due t h due s D Le).
      destruct (same_timers_timeout (set_timers [] s)) as (T1 & _).
      left. exact T1.
    + rewrite advance_to_early by (rewrite D; repeat constructor; simpl; lia).
      right. now exists h, due.
Qed.

(** On every page that the events of the user and the clock lead to from a
    page with at most the timer of the script, there is at most the timer
    of the script. *)
Lemma debounce_ok_handle (e : event) (s : page) :
  debounce_ok s -> debounce_ok (handle e s).
Proof.
  intros D. destruct e as [t v | t key | t target | t]; cbn [handle].
  - unfold keystroke. cbn [fst snd].
    now apply debounce_ok_type_text, debounce_ok_advance_to.
  - eapply same_timers_debounce_ok; [apply same_timers_press_key |].
    now apply debounce_ok_advance_to.
  - eapply same_timers_debounce_ok; [apply same_timers_dispatch_click |].
    now apply debounce_ok_advance_to.
  - now apply debounce_ok_advance_to.
Qed.

Lemma debounce_ok_reachable (es : list event) (s : page) :
  debounce_ok s -> debounce_ok (fold_left (fun s e => handle e s) es s).
Proof.
  revert s. induction es as [|e es IH]; intros s D; [exact D |].
  apply IH. now apply debounce_ok_handle.
Qed.


(** *** A burst of keystrokes *)

Lemma last_cons {A : Type} (k d : A) (r : list A) :
  List.last (k :: r) d = List.last r k.
Proof.
  revert k d. induction r as [|x r IH]; intros k d; [reflexivity |].
  change (List.last (k :: x :: r) d) with (List.last (x :: r) d).
  now rewrite (IH x d), (IH x k).
Qed.

(** While the keystrokes are less than 120 ms apart the callback does not
    run, and the page stays armed, for the last keystroke. *)
Lemma burst_rearms (ks : list (Z * string)) :
  forall (t : Z) (v : string) (s : page),
    armed t v s ->
    rapid t ks ->
    let s1 := fold_left (fun s k => keystroke k s) ks s in
    armed (fst (List.last ks (t, v))) (snd (List.last ks (t, v))) s1 /\
    evaluations s1 = evaluations s.
Proof.
  induction ks as [|[t' v'] ks IH]; intros t v s A R; [now split |].
  destruct R as [[Lo Hi] R]. cbn [fst] in *.
  destruct A as ((h & D & G) & N & S & B & L).
  destruct (keystroke_arms t' v' s) as [A' E']; eauto.
  { right. now exists h, (t + 120)%Z. }
  { lia. }
  rewrite advance_to_early in E'
    by (rewrite D; repeat constructor; simpl; lia).
  cbn [fold_left]. rewrite last_cons.
  destruct (IH t' v' (keystroke (t', v') s) A' R) as [A1 E1].
  split; [exact A1 |]. rewrite E1, E'. reflexivity.
Qed.

(** On an armed page the callback runs once 120 ms have passed, and reads
    the text of the last keystroke. *)
Lemma armed_fires (t : Z) (v : string) (s : page) (T : Z) :
  armed t v s ->
  (t + 120 <= T)%Z ->
  evaluations (advance_to T s) = evaluations s ++ [v] /\
  timers (advance_to T s) = [].
Proof.
  intros ((h & D & G) & N & S & B & L) Le.
  rewrite (advance_to_due T h (t + 120)%Z s D Le).
  destruct (same_timers_timeout (set_timers [] s)) as (T1 & _).
  split; [| exact T1].
  cbn [evaluations set_now]. now rewrite (timeout_evaluations _ v).
Qed.

(** C6. [searchPokemon] cancels the pending timer and sets one that is due
    120 ms later.  So for keystrokes that are each less than 120 ms after
    the one before, the callback does not run during the burst, and once
    120 ms have passed after the last keystroke it has run exactly once,
    on the text that the last keystroke left in the input. *)
Theorem debounce_one_evaluation (s : page) (k : Z * string)
    (ks : list (Z * string)) (T : Z) :
  is_Some (search s) ->
  is_Some (search_results s) ->
  search_oninput s = [searchPokemon_listener] ->
  debounce_ok s ->
  (now s <= fst k)%Z ->
  rapid (fst k) ks ->
  let final := List.last ks k in
  (fst final + 120 <= T)%Z ->
  let s1 := fold_left (fun s k => keystroke k s) (k :: ks) s in
  (timers (searchPokemon s) = [(next_handle s, (now s + 120)%Z)] /\
   _searchDebounceTimer (searchPokemon s) = Some (next_handle s)) /\
  (exists h : positive,
     timers s1 = [(h, (fst final + 120)%Z)] /\
     _searchDebounceTimer s1 = Some h) /\
  evaluations s1 = evaluations (advance_to (fst k) s) /\
  evaluations (advance_to T s1) = evaluations s1 ++ [snd final] /\
  timers (advance_to T s1) = [].
Proof.
  intros S B L D N R final Le s1.
  split.
  { destruct (searchPokemon_reschedules s S B D) as (P1 & P2 & _). now split. }
  destruct k as [t v]. cbn [fst] in *.
  destruct (keystroke_arms t v s S B L D N) as [A E].
  destruct (burst_rearms ks t v (keystroke (t, v) s) A R) as [A1 E1].
  fold final in A1. change (fold_left _ ks (keystroke (t, v) s)) with s1 in *.
  destruct (armed_fires _ _ s1 T A1 Le) as [F1 F2].
  destruct A1 as (H1 & _).
  repeat split; try assumption. now rewrite E1.
Qed.

Lemma debounce_one_evaluation_witness :
  let s := loaded_page "/index.html" (serves pokedex3) in
  let s1 :=
    fold_left (fun s k => keystroke k s)
      [(1000, "c"); (1050, "ch"); (1169, "cha"); (1200, "char")]%Z s in
  evaluations s1 = evaluations (advance_to 1000 s) /\
  evaluations (advance_to 1320 s1) = evaluations s1 ++ ["char"].
Proof.
  intros s s1.
  assert (N : (now s <= 1000)%Z) by (vm_compute; discriminate).
  assert (R : rapid 1000 [(1050, "ch"); (1169, "cha"); (1200, "char")]%Z)
    by (cbn; lia).
  assert (Le : (1200 + 120 <= 1320)%Z) by lia.
  destruct (debounce_one_evaluation s (1000, "c")%Z
              [(1050, "ch"); (1169, "cha"); (1200, "char")]%Z 1320%Z
              (ex_intro _ _ eq_refl) (ex_intro _ _ eq_refl) eq_refl
              (or_introl eq_refl) N R Le) as (_ & _ & E & F & _).
  split; [exact E | exact F].
Defined.

(** ** The listeners of the two headers *)

Ltac case_ifs :=
  repeat match goal with
         | |- context [if ?b then _ else _] => destruct b
         end.

(** [setActiveHeaderLink] changes the marks of the links and nothing
    else. *)
Lemma setActiveHeaderLink_frame (s : page) :
  exists f : nav_link -> option bool, setActiveHeaderLink s = set_nav_links f s.
Proof. unfold setActiveHeaderLink. case_ifs; eexists; reflexivity. Qed.

Lemma ensure_padding_frame (h : header_element) (s : page) :
  ensure_padding h s = s \/
  exists p : Q, ensure_padding h s = set_body_paddingTop p s.
Proof.
  unfold ensure_padding.
  destruct (Qlt_bool _ _); [right; eexists; reflexivity | now left].
Qed.

Lemma installHeader_then_run (h : header_element) (s : page) :
  run (installHeader_then (Some h)) s =
  let s1 := ensure_padding h (insertBefore_firstChild h s) in
  let s2 :=
    match search s1 with
    | Some _ => addEventListener_keydown (addEventListener_input s1)
    | None => s1
    end in
  setActiveHeaderLink (addEventListener_click s2).
Proof.
  unfold installHeader_then. unfold_M. cbv beta iota zeta.
  now destruct (search (ensure_padding h (insertBefore_firstChild h s))).
Qed.

Lemma installHeader_catch_run (e : exn) (s : page) :
  run (installHeader_catch e) s =
  setActiveHeaderLink
    (addEventListener_input
       (insertBefore_firstChild fallback
          (set_console (console s ++ [("Could not fetch header.html:", e)]) s))).
Proof.
  unfold installHeader_catch. unfold_M. cbv beta iota.
  change (search (insertBefore_firstChild fallback
            (set_console (console s ++ [("Could not fetch header.html:", e)]) s)))
    with (Some EmptyString).
  cbv beta iota. reflexivity.
Qed.

(** What [installHeaderFromFile] does when the page has no header yet:
    the [then] callback on a response that is a success, the [catch]
    callback otherwise. *)
Lemma installHeader_then_returns (text : html) (s : page) :
  exists s' : page, installHeader_then text s = (Returned tt, s').
Proof.
  unfold installHeader_then. unfold_M. destruct text as [h|]; cbv beta iota.
  - destruct (search (ensure_padding h (insertBefore_firstChild h s)));
      eexists; reflexivity.
  - eexists; reflexivity.
Qed.

Lemma installHeaderFromFile_served (s : page) (text : html) :
  site_header s = false ->
  header_resource s = serves text ->
  installHeaderFromFile s = installHeader_then text s.
Proof.
  intros H R. unfold installHeaderFromFile, fetch_header, bind at 1, get.
  rewrite H. unfold try_catch, bind at 1. rewrite R. cbv beta iota.
  unfold serves, bind at 1, check_ok. cbn [ok negb]. unfold ret at 1.
  cbv beta iota. unfold bind at 1, read_body. cbn [body]. unfold ret at 1.
  cbv beta iota.
  destruct (installHeader_then_returns text s) as [s' ->]. reflexivity.
Qed.

Lemma run_installHeaderFromFile_served (s : page) (h : header_element) :
  site_header s = false ->
  header_resource s = serves (Some h) ->
  run installHeaderFromFile s = run (installHeader_then (Some h)) s.
Proof.
  intros H R. unfold run. now rewrite (installHeaderFromFile_served s (Some h) H R).
Qed.

Lemma installHeaderFromFile_failed (s : page) :
  site_header s = false ->
  fetch_fails (header_resource s) = true ->
  exists e : exn, run installHeaderFromFile s = run (installHeader_catch e) s.
Proof.
  intros H F. unfold installHeaderFromFile, fetch_header. unfold_M.
  rewrite H. cbv beta iota.
  destruct (header_resource s) as [|[[] [t|]]]; simpl in F;
    try discriminate; eexists; reflexivity.
Qed.

(** C3.  With the header of [header.html] the three listeners are
    registered.  With the header that the [catch] callback builds, when the
    fetch of [header.html] fails, the input listener is the only one: no
    keydown listener is on the input and no click listener is added to the
    document, so Enter does nothing and a click outside leaves the page as
    it is. *)
Theorem fallback_header_listeners (s : page) :
  site_header s = false ->
  document_onclick s = [] ->
  fetch_fails (header_resource s) = true ->
  let fetched :=
    run installHeaderFromFile (with_header_resource (serves (Some full_header)) s) in
  let built := run installHeaderFromFile s in
  (search_oninput fetched = [searchPokemon_listener] /\
   search_onkeydown fetched = [enter_key_listener] /\
   document_onclick fetched = [click_away_listener]) /\
  (site_header built = true /\
   search built = Some EmptyString /\
   search_oninput built = [searchPokemon_listener] /\
   search_onkeydown built = [] /\
   document_onclick built = [] /\
   press_key "Enter" built = built /\
   dispatch_click elsewhere built = built).
Proof.
  intros H C F fetched built. split.
  - unfold fetched.
    rewrite (run_installHeaderFromFile_served _ full_header) by assumption || reflexivity.
    rewrite installHeader_then_run. cbv zeta.
    destruct (setActiveHeaderLink_frame
                (addEventListener_click
                   match search (ensure_padding full_header
                           (insertBefore_firstChild full_header
                              (with_header_resource (serves (Some full_header)) s))) with
                   | Some _ =>
                       addEventListener_keydown
                         (addEventListener_input
                            (ensure_padding full_header
                               (insertBefore_firstChild full_header
                                  (with_header_resource (serves (Some full_header)) s))))
                   | None =>
                       ensure_padding full_header
                         (insertBefore_firstChild full_header
                            (with_header_resource (serves (Some full_header)) s))
                   end)) as [f ->].
    destruct (ensure_padding_frame full_header
                (insertBefore_firstChild full_header
                   (with_header_resource (serves (Some full_header)) s)))
      as [-> | [p ->]]; simpl; now rewrite C.
  - destruct (installHeaderFromFile_failed s H F) as [e E].
    assert (L : site_header built = true /\ search built = Some EmptyString /\
                search_oninput built = [searchPokemon_listener] /\
                search_onkeydown built = [] /\ document_onclick built = []).
    { unfold built. rewrite E, installHeader_catch_run.
      destruct (setActiveHeaderLink_frame
                  (addEventListener_input
                     (insertBefore_firstChild fallback
                        (set_console
                           (console s ++ [("Could not fetch header.html:", e)]) s))))
        as [f ->].
      simpl. now rewrite C. }
    destruct L as (L1 & L2 & L3 & L4 & L5). repeat split; try assumption.
    + unfold press_key, dispatch_keydown. now rewrite L2, L4.
    + unfold dispatch_click. now rewrite L5.
Qed.

Lemma fallback_header_listeners_witness :
  let built := run installHeaderFromFile (bare_page "/index.html" (fun _ => Rejects) not_found) in
  search_oninput built = [searchPokemon_listener] /\
  search_onkeydown built = [] /\
  document_onclick built = [].
Proof.
  intros built.
  destruct (fallback_header_listeners
              (bare_page "/index.html" (fun _ => Rejects) not_found)
              eq_refl eq_refl eq_refl) as (_ & _ & _ & I & K & D & _).
  split; [exact I | split; [exact K | exact D]].
Defined.

(** ** The container and [aria-hidden] *)

Lemma render_agrees (m : option (list string)) (s : page) (box : results_box) :
  search_results (renderSearchResults m s) = Some box ->
  is_Some (search_results s) ->
  visibility_agrees box.
Proof.
  unfold renderSearchResults. intros E [b B]. rewrite B in E.
  destruct m as [[|name names]|]; injection E as <-;
    unfold visibility_agrees; simpl; tauto.
Qed.

(** C9.  After [renderSearchResults] the container is visible with
    [aria-hidden] false, or hidden with [aria-hidden] true.  A click outside
    the input and the container, on a page where the container is visible,
    hides the container and leaves [aria-hidden] false: visibility and
    [aria-hidden] no longer agree. *)
Theorem click_away_keeps_aria_hidden (s : page) (value : string) (box : results_box) :
  search s = Some value ->
  search_results s = Some box ->
  document_onclick s = [click_away_listener] ->
  style_display box = display_block ->
  aria_hidden box = Some "false" ->
  exists box' : results_box,
    search_results (dispatch_click elsewhere s) = Some box' /\
    style_display box' = display_none /\
    aria_hidden box' = Some "false" /\
    rows box' = rows box /\
    ~ visibility_agrees box'.
Proof.
  intros S B C D A. exists (with_display display_none box).
  unfold dispatch_click. rewrite C. cbn [fold_left]. unfold click_away.
  rewrite S, B. simpl. rewrite A. repeat split.
  unfold visibility_agrees. simpl. rewrite A.
  intros [[? _] | [_ ?]]; discriminate.
Qed.

Lemma click_away_keeps_aria_hidden_witness :
  let s :=
    fold_left (fun s e => handle e s)
      [input_event 10 "char"; idle 200; click_event 300 elsewhere]
      (loaded_page "/index.html" (serves pokedex3)) in
  exists box' : results_box,
    search_results s = Some box' /\
    style_display box' = display_none /\
    aria_hidden box' = Some "false" /\
    rows box' = map rendered_row ["Charmander"; "Charizard"] /\
    ~ visibility_agrees box'.
Proof.
  intros s.
  exact (click_away_keeps_aria_hidden
           (advance_to 300
              (advance_to 200
                 (keystroke (10%Z, "char")
                    (loaded_page "/index.html" (serves pokedex3)))))
           "char"
           {| style_display := display_block;
              rows := map rendered_row ["Charmander"; "Charizard"];
              aria_hidden := Some "false" |}
           eq_refl eq_refl eq_refl eq_refl eq_refl).
Defined.

(** ** The loaded page *)

Lemma fetch_result_cases {A : Type} (r : fetch_result A) :
  fetch_fails r = true \/ exists v : A, r = serves v.
Proof.
  destruct r as [|[[] [v|]]]; simpl; auto. right. now exists v.
Qed.

Lemma insertBefore_firstChild_timers (h : header_element) (s : page) :
  timers (insertBefore_firstChild h s) = timers s.
Proof.
  unfold insertBefore_firstChild.
  now destruct (h_search h), (h_search_results h).
Qed.

Lemma setActiveHeaderLink_timers (s : page) :
  timers (setActiveHeaderLink s) = timers s.
Proof. now destruct (setActiveHeaderLink_frame s) as [f ->]. Qed.

Lemma ensure_padding_timers (h : header_element) (s : page) :
  timers (ensure_padding h s) = timers s.
Proof. now destruct (ensure_padding_frame h s) as [-> | [p ->]]. Qed.

Lemma installHeader_then_timers (text : html) (s : page) :
  timers (run (installHeader_then text) s) = timers s.
Proof.
  destruct text as [h|]; [| reflexivity].
  rewrite installHeader_then_run. cbv zeta. rewrite setActiveHeaderLink_timers.
  unfold addEventListener_click. cbn [timers set_document_onclick].
  destruct (search (ensure_padding h (insertBefore_firstChild h s))).
  - unfold addEventListener_keydown. cbn [timers set_search_onkeydown].
    unfold addEventListener_input.
    destruct (search_oninput _); cbn [timers set_search_oninput];
      now rewrite ensure_padding_timers, insertBefore_firstChild_timers.
  - now rewrite ensure_padding_timers, insertBefore_firstChild_timers.
Qed.

Lemma installHeader_catch_timers (e : exn) (s : page) :
  timers (run (installHeader_catch e) s) = timers s.
Proof.
  rewrite installHeader_catch_run, setActiveHeaderLink_timers.
  unfold addEventListener_input.
  destruct (search_oninput _); cbn [timers set_search_oninput];
    now rewrite insertBefore_firstChild_timers.
Qed.

(** [installHeaderFromFile] sets no timer. *)
Lemma installHeaderFromFile_timers (s : page) :
  timers (run installHeaderFromFile s) = timers s.
Proof.
  destruct (site_header s) eqn:H.
  - unfold installHeaderFromFile, run, bind, get, modify. rewrite H.
    cbn [snd]. apply setActiveHeaderLink_timers.
  - destruct (fetch_result_cases (header_resource s)) as [F | [text R]].
    + destruct (installHeaderFromFile_failed s H F) as [e ->].
      apply installHeader_catch_timers.
    + unfold run. rewrite (installHeaderFromFile_served s text H R).
      apply installHeader_then_timers.
Qed.

Lemma onDOMContentLoaded_timers (s : page) :
  timers (run onDOMContentLoaded s) = timers s.
Proof.
  pose proof (installHeaderFromFile_timers s) as T.
  unfold onDOMContentLoaded, run, bind in *.
  destruct (installHeaderFromFile s) as [[[]|e] s1]; cbn [snd] in *; [| exact T].
  destruct (same_timers_load s1) as (L & _).
  destruct (loadSearchPokedex s1) as [[v|e] s2]; unfold ret; cbn [snd] in *;
    congruence.
Qed.

(** Once [DOMContentLoaded] has been handled no timer is pending. *)
Lemma debounce_ok_loaded (path : string) (data : fetch_result json) :
  debounce_ok (loaded_page path data).
Proof. left. unfold loaded_page. now rewrite onDOMContentLoaded_timers. Qed.

(** * More properties of the script *)

(** ** [normalizeName] *)

Lemma toLowerCase_char_alnum (c : ascii) :
  isLowerAlnum c = true -> Js.toLowerCase_char c = c.
Proof. each_char c; intros H; try reflexivity; discriminate H. Qed.

Lemma isLowerAlnum_not_upper (c : ascii) :
  isLowerAlnum c = true -> Js.isUpperCase c = false.
Proof. each_char c; intros H; try reflexivity; discriminate H. Qed.

Lemma remove_non_alnum_every (s : string) :
  every isLowerAlnum (remove_non_alnum s) = true.
Proof.
  induction s as [|c s IH]; simpl; [reflexivity |].
  destruct (isLowerAlnum c) eqn:E; simpl; [now rewrite E | exact IH].
Qed.

Lemma remove_non_alnum_fixed (s : string) :
  every isLowerAlnum s = true ->
  remove_non_alnum (Js.toLowerCase s) = s.
Proof.
  induction s as [|c s IH]; simpl; [reflexivity |].
  intros H. apply andb_true_iff in H as [C R].
  now rewrite (toLowerCase_char_alnum c C), C, (IH R).
Qed.

Lemma toLowerCase_app (a b : string) :
  Js.toLowerCase (a +:+ b) = Js.toLowerCase a +:+ Js.toLowerCase b.
Proof. induction a as [|c a IH]; simpl; [reflexivity | now rewrite IH]. Qed.

Lemma remove_non_alnum_app (a b : string) :
  remove_non_alnum (a +:+ b) = remove_non_alnum a +:+ remove_non_alnum b.
Proof.
  induction a as [|c a IH]; simpl; [reflexivity |].
  destruct (isLowerAlnum c); simpl; now rewrite IH.
Qed.

(** X1. The result of [normalizeName] is made of the small letters a-z and
    the digits only, and normalising it again changes nothing. *)
Theorem normalizeName_idempotent (n : option string) :
  every isLowerAlnum (normalizeName n) = true /\
  normalizeName (Some (normalizeName n)) = normalizeName n.
Proof.
  assert (E : every isLowerAlnum (normalizeName n) = true)
    by apply remove_non_alnum_every.
  split; [exact E |].
  unfold normalizeName at 1.
  destruct (normalizeName n) as [|c r] eqn:N; [reflexivity |].
  cbn [Js.or_default]. now apply remove_non_alnum_fixed.
Qed.

(** X2. [normalizeName] ignores case: two names that differ only in case
    have the same normal form.  It also works piece by piece: the normal
    form of two texts put together is the two normal forms put together, so
    spaces and punctuation between the pieces do not count. *)
Theorem normalizeName_ignores_case (a b : string) :
  (differ_only_in_case a b -> normalizeName (Some a) = normalizeName (Some b)) /\
  normalizeName (Some (a +:+ b)) = normalizeName (Some a) +:+ normalizeName (Some b).
Proof.
  assert (D : forall s : string,
             normalizeName (Some s) = remove_non_alnum (Js.toLowerCase s))
    by (intros [|c r]; reflexivity).
  split.
  - intros H. rewrite !D. now rewrite (differ_only_in_case_toLowerCase a b H).
  - now rewrite !D, toLowerCase_app, remove_non_alnum_app.
Qed.

Lemma normalizeName_ignores_case_witness :
  normalizeName (Some "Mr. Mime") = normalizeName (Some "mr. mime").
Proof.
  apply (proj1 (normalizeName_ignores_case "Mr. Mime" "mr. mime")).
  apply (case_lower "M"%char); [reflexivity |].
  do 3 apply case_same.
  apply (case_lower "M"%char); [reflexivity |].
  do 3 apply case_same. apply case_end.
Defined.

(** ** The rows of the container *)

Lemma encodeChar_safe (c : ascii) : every isUrlSafe (Js.encodeChar c) = true.
Proof. each_char c; reflexivity. Qed.

Lemma every_app (p : ascii -> bool) (a b : string) :
  every p (a +:+ b) = every p a && every p b.
Proof.
  induction a as [|c a IH]; simpl; [reflexivity |].
  now rewrite IH, andb_assoc.
Qed.

Lemma encodeURIComponent_safe (s : string) :
  every isUrlSafe (Js.encodeURIComponent s) = true.
Proof.
  induction s as [|c s IH]; simpl; [reflexivity |].
  now rewrite every_app, encodeChar_safe, IH.
Qed.

(** X3. The [data-name] attribute that [renderSearchResults] writes for a
    name holds unreserved characters and percent signs only: whatever the
    name, no double quote, angle bracket, ampersand or space reaches the
    attribute, so the name cannot end the attribute or the tag. *)
Theorem data_name_is_safe (name : string) :
  every isUrlSafe (data_name (rendered_row name)) = true /\
  Forall (fun c => isUrlSafe c = false)
    [ascii_of_N 34; "<"; ">"; "&"; " "]%char.
Proof.
  split; [apply encodeURIComponent_safe |].
  repeat constructor.
Qed.

Lemma encodeURIComponent_inj (a b : string) :
  Js.encodeURIComponent a = Js.encodeURIComponent b -> a = b.
Proof.
  intros H. apply (f_equal Js.decodeURIComponent) in H.
  rewrite !decode_encode in H. now injection H.
Qed.

(** X4. Two different names have different detail URLs: the encoding of
    the name in [pokemon.html?name=...] loses nothing. *)
Theorem detail_url_distinct (a b : string) :
  a <> b -> detail_url a <> detail_url b.
Proof.
  unfold detail_url. intros N H. apply N, encodeURIComponent_inj.
  simpl in H. now repeat injection H as H.
Qed.

Lemma detail_url_distinct_witness : detail_url "Mew" <> detail_url "Mewtwo".
Proof. apply (detail_url_distinct "Mew" "Mewtwo"). discriminate. Defined.

Lemma click_away_inside (target : click_target) (s : page) :
  target <> elsewhere -> search_results (click_away target s) = search_results s.
Proof.
  intros N. unfold click_away.
  destruct (search_results s) as [box|] eqn:B; [| now rewrite B].
  destruct (search s); [| now rewrite B].
  destruct target; try contradiction; simpl; now rewrite B.
Qed.

Lemma click_listeners_inside (target : click_target)
    (ls : list click_listener) (s : page) :
  target <> elsewhere ->
  search_results
    (fold_left
       (fun s l => match l with click_away_listener => click_away target s end)
       ls s) = search_results s.
Proof.
  intros N. revert s. induction ls as [|[] ls IH]; intros s; [reflexivity |].
  simpl. now rewrite IH, click_away_inside.
Qed.

Lemma result_onclick_search_results (r : result_row) (s : page) :
  search_results (run (result_onclick r) s) = search_results s.
Proof.
  unfold run, result_onclick.
  now destruct (Js.decodeURIComponent (data_name r)).
Qed.

Lemma dispatch_click_inside (target : click_target) (s : page) :
  target <> elsewhere ->
  search_results (dispatch_click target s) = search_results s.
Proof.
  intros N. unfold dispatch_click. rewrite click_listeners_inside by exact N.
  destruct target as [|i| |]; try reflexivity.
  destruct (search_results s) as [box|] eqn:B; [| now rewrite B].
  destruct (rows box !! i) as [r|]; [| now rewrite B].
  destruct (row_onclick r); [| now rewrite B].
  now rewrite result_onclick_search_results.
Qed.

(** X5. A click on the input, on the container or on one of its rows never
    changes the container, whatever listeners are on the document: only a
    click elsewhere can hide it. *)
Theorem click_inside_keeps_results (target : click_target) (s : page) :
  target <> elsewhere ->
  search_results (dispatch_click target s) = search_results s.
Proof. apply dispatch_click_inside. Qed.

Lemma click_inside_keeps_results_witness :
  search_results (dispatch_click on_search_input mime_page) =
  search_results mime_page.
Proof.
  apply (click_inside_keeps_results on_search_input mime_page). discriminate.
Defined.

(** X6. After [renderSearchResults] has shown a list of names that hold no
    markup (no less-than sign, no ampersand, no code unit 0 or 13), a click
    on the row at any position of the list opens the detail page of the
    name at that position, once, and the container stays as it is. *)
Theorem rendered_row_click (names : list string) (s : page) (box : results_box)
    (i : nat) (name : string) :
  forallb plain_name names = true ->
  search_results s = Some box ->
  names !! i = Some name ->
  let s' := renderSearchResults (Some names) s in
  navigations (dispatch_click (on_result i) s') =
    navigations s ++ ["pokemon.html?name=" +:+ Js.encodeURIComponent name] /\
  search_results (dispatch_click (on_result i) s') = search_results s'.
Proof.
  intros _ B L s'. split; [| now apply dispatch_click_inside].
  assert (R : option_map rows (search_results s') = Some (map rendered_row names))
    by exact (rendered_rows names s box B).
  destruct (search_results s') as [box'|] eqn:B'; [| discriminate].
  injection R as R.
  assert (N : navigations s' = navigations s).
  { unfold s', renderSearchResults. rewrite B. now destruct names. }
  rewrite <- N. apply (click_rendered_row i name s' box' B').
  rewrite R, list_lookup_fmap, L. reflexivity.
Qed.

Lemma rendered_row_click_witness :
  navigations
    (dispatch_click (on_result 1)
       (renderSearchResults (Some ["Charmander"; "Mr. Mime"]) mime_page))
  = ["pokemon.html?name=Mr.%20Mime"].
Proof.
  apply (proj1 (rendered_row_click ["Charmander"; "Mr. Mime"] mime_page
                  (with_aria_hidden "false"
                     (with_display display_block
                        (with_rows [rendered_row "Mr. Mime"]
                           {| style_display := display_none; rows := [];
                              aria_hidden := Some "true" |})))
                  1 "Mr. Mime" eq_refl eq_refl eq_refl)).
Defined.

(** X7. What [renderSearchResults] leaves in the container depends on its
    argument only.  On two pages that have the container, whatever the two
    containers held and however they were shown, the same argument leaves
    the same container: hidden and empty for no names, shown for some.  The
    call changes nothing else in the page, and nothing at all on a page
    without the container. *)
Theorem renderSearchResults_overwrites (m : option (list string))
    (s s' : page) (box box' : results_box) :
  search_results s = Some box ->
  search_results s' = Some box' ->
  search_results (renderSearchResults m s) =
    search_results (renderSearchResults m s') /\
  (exists shown : results_box,
     search_results (renderSearchResults m s) = Some shown /\
     style_display shown =
       match m with
       | None | Some [] => display_none
       | Some (_ :: _) => display_block
       end) /\
  renderSearchResults m s =
    set_search_results (search_results (renderSearchResults m s)) s /\
  renderSearchResults m (set_search_results None s) = set_search_results None s.
Proof.
  intros B B'. unfold renderSearchResults. rewrite B, B'.
  destruct m as [[|name names]|]; repeat split; eexists; split; reflexivity.
Qed.

Lemma renderSearchResults_overwrites_witness :
  search_results (renderSearchResults (Some ["Abra"]) mime_page) =
  search_results
    (renderSearchResults (Some ["Abra"]) (loaded_page "/index.html" (serves pokedex3))).
Proof.
  apply (proj1 (renderSearchResults_overwrites (Some ["Abra"]) mime_page
                  (loaded_page "/index.html" (serves pokedex3))
                  (with_aria_hidden "false"
                     (with_display display_block
                        (with_rows [rendered_row "Mr. Mime"]
                           {| style_display := display_none; rows := [];
                              aria_hidden := Some "true" |})))
                  {| style_display := display_none; rows := [];
                     aria_hidden := Some "true" |}
                  eq_refl eq_refl)).
Defined.

(** X8. No match is lost below the cap: when fewer than 15 names are shown,
    every key of the index whose lower-cased form contains the query is
    among them. *)
Theorem searchMatches_complete (pokedex : json) (raw name : string) :
  In name (Object_keys (or_empty_object pokedex)) ->
  is_substring raw (Js.toLowerCase name) ->
  length (searchMatches pokedex raw) < 15 ->
  In name (searchMatches pokedex raw).
Proof.
  intros K M L. unfold searchMatches in *.
  set (found := List.filter _ _) in *.
  assert (F : In name found).
  { apply filter_In. split; [exact K | now apply includes_spec]. }
  rewrite length_take in L.
  rewrite take_ge by lia. exact F.
Qed.

Lemma searchMatches_complete_witness :
  In "Charizard" (searchMatches pokedex3 "char").
Proof.
  apply (searchMatches_complete pokedex3 "char" "Charizard").
  - simpl. tauto.
  - exists EmptyString, "izard". reflexivity.
  - simpl. lia.
Defined.

(** ** The file name of the page and the marks of the links *)

Lemma split_segments_no_slash (s : string) :
  Forall (fun seg => no_slash seg = true) (Js.split "/" s).
Proof.
  induction s as [|c s IH]; simpl; [repeat constructor |].
  destruct (Ascii.eqb c "/") eqn:E; [now constructor |].
  destruct (Js.split "/" s) as [|seg segs]; [repeat constructor; simpl; now rewrite E |].
  inversion IH as [|? ? H1 H2]; subst. constructor; [| exact H2].
  simpl. now rewrite E.
Qed.

Lemma pop_In (a : list string) (x : string) : Js.pop a = Some x -> In x a.
Proof.
  induction a as [|y a IH]; simpl; [discriminate |].
  destruct a as [|z a]; [intros [= ->]; now left | intros H; right; now apply IH].
Qed.

(** X9. The file name that [setActiveHeaderLink] matches against is never
    empty and holds no slash, whatever the path of the page: a path that
    ends in a slash, or the empty path, gives [index.html]. *)
Theorem current_path_is_file_name (s : page) :
  current_path s <> EmptyString /\
  no_slash (current_path s) = true /\
  (forall dir : string,
     pathname s = dir +:+ "/" -> current_path s = "index.html").
Proof.
  split; [| split].
  - intros H. pose proof (current_path_not_empty s) as N. now rewrite H in N.
  - unfold current_path.
    destruct (Js.pop (Js.split "/" (pathname s))) as [[|c r]|] eqn:P;
      try reflexivity.
    apply pop_In in P.
    pose proof (split_segments_no_slash (pathname s)) as F.
    rewrite Forall_forall in F. apply F. now apply list_elem_of_In.
  - intros dir P.
    now rewrite (current_path_last_segment s dir EmptyString P eq_refl).
Qed.

Lemma current_path_is_file_name_witness :
  current_path (linked_page "/pokedex/") = "index.html".
Proof.
  apply (proj2 (proj2 (current_path_is_file_name (linked_page "/pokedex/")))
           "/pokedex").
  reflexivity.
Defined.

Lemma setActiveHeaderLink_current_path (s : page) :
  current_path (setActiveHeaderLink s) = current_path s.
Proof. now destruct (setActiveHeaderLink_frame s) as [f ->]. Qed.

Lemma marks_again (s : page) :
  marks (setActiveHeaderLink (setActiveHeaderLink s)) = marks (setActiveHeaderLink s).
Proof.
  assert (P : forall k : nav_link,
             nav_links (setActiveHeaderLink (setActiveHeaderLink s)) k =
             nav_links (setActiveHeaderLink s) k).
  { intros k. rewrite (setActiveHeaderLink_marks (setActiveHeaderLink s)).
    rewrite setActiveHeaderLink_current_path, setActiveHeaderLink_marks.
    now destruct (nav_links s k). }
  unfold marks, all_links, map. now rewrite !P.
Qed.

(** X10. After [setActiveHeaderLink] at most one of the five links is
    marked, whatever was marked before, and a second call leaves every mark
    as the first call left it. *)
Theorem setActiveHeaderLink_marks_one (s : page) :
  length
    (List.filter (fun m => match m with Some true => true | _ => false end)
       (marks (setActiveHeaderLink s))) <= 1 /\
  marks (setActiveHeaderLink (setActiveHeaderLink s)) = marks (setActiveHeaderLink s).
Proof.
  split.
  - unfold marks, all_links, map. rewrite !setActiveHeaderLink_marks.
    destruct (active_link (current_path s));
      repeat match goal with
             | |- context [nav_links s ?k] => destruct (nav_links s k)
             end; simpl; lia.
  - apply marks_again.
Qed.

(** ** What the events leave alone *)

Lemma load_frame (s : page) :
  navigations (snd (loadSearchPokedex s)) = navigations s /\
  network (snd (loadSearchPokedex s)) = network s.
Proof.
  destruct (loadSearchPokedex_returns s) as (v & s' & E & _ & S').
  rewrite E. cbn [snd]. rewrite S'. now split.
Qed.

Lemma render_frame (m : option (list string)) (s : page) :
  navigations (renderSearchResults m s) = navigations s /\
  network (renderSearchResults m s) = network s.
Proof.
  unfold renderSearchResults.
  destruct (search_results s); [| now split].
  destruct m as [[|? ?]|]; now split.
Qed.

(** The callback opens no page; with the index in the global it fetches
    nothing and leaves the global as it is. *)
Lemma timeout_frame (s : page) :
  navigations (run searchPokemon_timeout s) = navigations s /\
  network (run searchPokemon_timeout s) = network s /\
  (truthy (_searchPokedex s) = true ->
   _searchPokedex (run searchPokemon_timeout s) = _searchPokedex s /\
   fetches (run searchPokemon_timeout s) = fetches s).
Proof.
  unfold searchPokemon_timeout. unfold_M.
  destruct (search s) as [v|]; [| now repeat split].
  destruct (Js.isEmpty (Js.toLowerCase (Js.trim v))); cbv beta iota.
  - cbn [snd]. destruct (render_frame None (log_evaluation v s)) as [N W].
    rewrite N, W, render_searchPokedex, render_fetches. now repeat split.
  - destruct (load_frame (log_evaluation v s)) as [N W].
    split; [| split].
    + destruct (loadSearchPokedex (log_evaluation v s)) as [[index|e] s1];
        cbn [snd] in *; [| exact N].
      now rewrite (proj1 (render_frame _ s1)).
    + destruct (loadSearchPokedex (log_evaluation v s)) as [[index|e] s1];
        cbn [snd] in *; [| exact W].
      now rewrite (proj2 (render_frame _ s1)).
    + intros T.
      rewrite (loadSearchPokedex_cached (log_evaluation v s)) by exact T.
      cbn [snd]. now rewrite render_searchPokedex, render_fetches.
Qed.

Lemma searchPokemon_frame (s : page) :
  navigations (searchPokemon s) = navigations s /\
  loaded_index (searchPokemon s) = loaded_index s.
Proof.
  unfold searchPokemon.
  destruct (search s), (search_results s), (_searchDebounceTimer s); now split.
Qed.

Lemma input_listeners_frame (ls : list input_listener) (s : page) :
  let s' :=
    fold_left
      (fun s l => match l with searchPokemon_listener => searchPokemon s end)
      ls s in
  navigations s' = navigations s /\ loaded_index s' = loaded_index s.
Proof.
  revert s. induction ls as [|[] ls IH]; intros s; [now split |].
  cbn [fold_left]. destruct (IH (searchPokemon s)) as [N I].
  destruct (searchPokemon_frame s) as [N' I']. cbv zeta in *.
  split; congruence.
Qed.

Lemma type_text_frame (v : string) (s : page) :
  navigations (type_text v s) = navigations s /\
  loaded_index (type_text v s) = loaded_index s.
Proof.
  unfold type_text, dispatch_input. destruct (search s); [| now split].
  exact (input_listeners_frame _ (set_search (Some v) s)).
Qed.

Lemma fired_frame (due : list (positive * Z)) (s : page) :
  let s' := fold_left (fun s u => fire u s) due s in
  navigations s' = navigations s /\
  (truthy (_searchPokedex s) = true -> loaded_index s' = loaded_index s).
Proof.
  revert s. induction due as [|u due IH]; intros s; [now split |].
  cbn [fold_left]. destruct (IH (fire u s)) as [N I]. cbv zeta in *.
  unfold fire in *.
  destruct (timeout_frame
              (set_timers
                 (List.filter (fun w => negb (Pos.eqb (fst w) (fst u))) (timers s)) s))
    as (N' & _ & I').
  cbn [navigations _searchPokedex fetches set_timers] in N', I'.
  split; [congruence |].
  intros T. destruct (I' T) as [C F].
  rewrite I by (now rewrite C). unfold loaded_index. now rewrite C, F.
Qed.

Lemma advance_to_frame (t : Z) (s : page) :
  navigations (advance_to t s) = navigations s /\
  (truthy (_searchPokedex s) = true ->
   loaded_index (advance_to t s) = loaded_index s).
Proof.
  unfold advance_to.
  exact (fired_frame (List.filter (fun u => (snd u <=? t)%Z) (timers s)) s).
Qed.

Lemma click_away_index (target : click_target) (s : page) :
  loaded_index (click_away target s) = loaded_index s.
Proof.
  unfold click_away.
  destruct (search_results s), (search s); try reflexivity.
  now destruct (negb (box_contains target) && not_search_input target).
Qed.

Lemma dispatch_click_index (target : click_target) (s : page) :
  loaded_index (dispatch_click target s) = loaded_index s.
Proof.
  unfold dispatch_click.
  assert (L : forall (ls : list click_listener) (s : page),
             loaded_index
               (fold_left
                  (fun s l =>
                     match l with click_away_listener => click_away target s end)
                  ls s) = loaded_index s).
  { induction ls as [|[] ls IH]; intros s0; [reflexivity |].
    cbn [fold_left]. now rewrite IH, click_away_index. }
  rewrite L.
  destruct target as [|i| |]; try reflexivity.
  destruct (search_results s) as [box|]; [| reflexivity].
  destruct (rows box !! i) as [r|]; [| reflexivity].
  destruct (row_onclick r); [| reflexivity].
  unfold run, result_onclick.
  now destruct (Js.decodeURIComponent (data_name r)).
Qed.

Lemma press_key_index (key : string) (s : page) :
  loaded_index (press_key key s) = loaded_index s.
Proof.
  unfold press_key, dispatch_keydown. destruct (search s); [| reflexivity].
  generalize (search_onkeydown s) as ls. intros ls. revert s.
  induction ls as [|[] ls IH]; intros s; [reflexivity |].
  cbn [fold_left]. rewrite IH. unfold enter_key.
  destruct (String.eqb key "Enter"); [| reflexivity].
  destruct (first_result s); [apply dispatch_click_index |].
  destruct (search s) as [v|]; [| reflexivity].
  now destruct (negb (Js.isEmpty (Js.trim v))).
Qed.

Lemma handle_typing_navigations (e : event) (s : page) :
  typing_or_waiting e = true -> navigations (handle e s) = navigations s.
Proof.
  destruct e as [t v | t key | t target | t]; cbn [handle typing_or_waiting];
    intros H; try discriminate.
  - unfold keystroke. cbn [fst snd].
    rewrite (proj1 (type_text_frame v (advance_to t s))).
    apply advance_to_frame.
  - apply advance_to_frame.
Qed.

(** X12. Typing and waiting never leave the page: however the text is
    edited and whatever the search finds, [window.location] is assigned only
    by a key press or a click. *)
Theorem typing_never_navigates (s : page) (es : list event) :
  forallb typing_or_waiting es = true ->
  navigations (after_events es s) = navigations s.
Proof.
  unfold after_events. revert s. induction es as [|e es IH]; intros s H;
    [reflexivity |].
  cbn [forallb] in H. apply andb_true_iff in H as [E R].
  cbn [fold_left]. rewrite (IH _ R). now apply handle_typing_navigations.
Qed.

Lemma typing_never_navigates_witness :
  navigations
    (after_events [input_event 10 "char"; idle 200; input_event 300 "charizard"; idle 900]
       (loaded_page "/index.html" (serves pokedex3))) = [].
Proof.
  apply (typing_never_navigates (loaded_page "/index.html" (serves pokedex3))
           [input_event 10 "char"; idle 200; input_event 300 "charizard"; idle 900]).
  reflexivity.
Defined.

(** X13. At most one timer is ever pending.  On a page that had no timer
    when the script started, after [DOMContentLoaded] and any sequence of
    events there is no pending timer or exactly one, and then its handle is
    the one in [_searchDebounceTimer]. *)
Theorem one_pending_timer (s : page) (es : list event) :
  timers s = [] ->
  let s' := after_events es (run onDOMContentLoaded s) in
  length (timers s') <= 1 /\ debounce_ok s'.
Proof.
  intros T s'.
  assert (D : debounce_ok s').
  { apply debounce_ok_reachable. left. now rewrite onDOMContentLoaded_timers. }
  split; [| exact D].
  destruct D as [-> | (h & due & -> & _)]; simpl; lia.
Qed.

Lemma one_pending_timer_witness :
  let s' :=
    after_events [input_event 10 "c"; input_event 50 "ch"; idle 100; input_event 400 "cha"]
      (run onDOMContentLoaded
         (bare_page "/index.html" (fun _ => serves pokedex3) (serves (Some full_header)))) in
  length (timers s') <= 1 /\ debounce_ok s'.
Proof.
  exact (one_pending_timer
           (bare_page "/index.html" (fun _ => serves pokedex3) (serves (Some full_header)))
           [input_event 10 "c"; input_event 50 "ch"; idle 100; input_event 400 "cha"]
           eq_refl).
Defined.

(** X14. Keystrokes that are 120 ms or more apart are each searched: the
    timer of the first has fired when the second comes, so nothing is
    cancelled, and each callback reads the text its own keystroke left. *)
Theorem slow_typing_evaluates_each (s : page) (t1 : Z) (v1 : string)
    (t2 : Z) (v2 : string) (T : Z) :
  is_Some (search s) ->
  is_Some (search_results s) ->
  search_oninput s = [searchPokemon_listener] ->
  debounce_ok s ->
  (now s <= t1)%Z ->
  (t1 + 120 <= t2)%Z ->
  (t2 + 120 <= T)%Z ->
  evaluations (advance_to T (keystroke (t2, v2) (keystroke (t1, v1) s))) =
  evaluations (advance_to t1 s) ++ [v1; v2].
Proof.
  intros S B L D N G1 G2.
  destruct (keystroke_arms t1 v1 s S B L D N) as [A1 E1].
  destruct (armed_fires t1 v1 _ t2 A1 G1) as [F1 _].
  assert (A1' := A1). destruct A1' as ((h & D1 & H1) & N1 & S1 & B1 & L1).
  destruct (keystroke_arms t2 v2 (keystroke (t1, v1) s)) as [A2 E2];
    eauto.
  { right. now exists h, (t1 + 120)%Z. }
  { lia. }
  destruct (armed_fires t2 v2 _ T A2 G2) as [F2 _].
  rewrite F2, E2, F1, E1, <- app_assoc. reflexivity.
Qed.

Lemma slow_typing_evaluates_each_witness :
  evaluations
    (advance_to 500
       (keystroke (130%Z, "ch")
          (keystroke (10%Z, "c") (loaded_page "/index.html" (serves pokedex3)))))
  = ["c"; "ch"].
Proof.
  assert (N : (now (loaded_page "/index.html" (serves pokedex3)) <= 10)%Z)
    by (vm_compute; discriminate).
  assert (G1 : (10 + 120 <= 130)%Z) by lia.
  assert (G2 : (130 + 120 <= 500)%Z) by lia.
  exact (slow_typing_evaluates_each
           (loaded_page "/index.html" (serves pokedex3)) 10 "c" 130 "ch" 500
           (ex_intro _ _ eq_refl) (ex_intro _ _ eq_refl) eq_refl
           (or_introl eq_refl) N G1 G2).
Defined.

(** ** Inserting the header *)

(** X15. When [header.html] is served but holds no element, nothing is
    inserted and nothing is registered: the page is left exactly as it was,
    without the fallback header and without a warning. *)
Theorem empty_header_inserts_nothing (s : page) :
  site_header s = false ->
  header_resource s = serves None ->
  run installHeaderFromFile s = s.
Proof.
  intros H R. unfold run. now rewrite (installHeaderFromFile_served s None H R).
Qed.

Lemma empty_header_inserts_nothing_witness :
  run installHeaderFromFile (bare_page "/index.html" (fun _ => Rejects) (serves None)) =
  bare_page "/index.html" (fun _ => Rejects) (serves None).
Proof.
  apply (empty_header_inserts_nothing
           (bare_page "/index.html" (fun _ => Rejects) (serves None)));
    reflexivity.
Defined.

Lemma installHeaderFromFile_present (s : page) :
  site_header s = true ->
  run installHeaderFromFile s = setActiveHeaderLink s.
Proof.
  intros H. unfold installHeaderFromFile, run, bind, get, modify. now rewrite H.
Qed.

Lemma site_header_inserted (s : page) :
  site_header s = false ->
  (fetch_fails (header_resource s) = true \/
   exists h : header_element,
     header_resource s = serves (Some h) /\ h_site_header h = true) ->
  exists x : page,
    run installHeaderFromFile s = setActiveHeaderLink x /\ site_header x = true.
Proof.
  intros H [F | (h & R & I)].
  - destruct (installHeaderFromFile_failed s H F) as [e ->].
    rewrite installHeader_catch_run. eexists. split; [reflexivity |].
    unfold addEventListener_input. now destruct (search_oninput _).
  - rewrite (run_installHeaderFromFile_served s h H R), installHeader_then_run.
    cbv zeta. eexists. split; [reflexivity |].
    unfold addEventListener_click. cbn [site_header set_document_onclick].
    assert (P : site_header (ensure_padding h (insertBefore_firstChild h s)) = true).
    { destruct (ensure_padding_frame h (insertBefore_firstChild h s))
        as [-> | [p ->]]; cbn [site_header set_body_paddingTop];
        unfold insertBefore_firstChild;
        destruct (h_search h), (h_search_results h); simpl; now rewrite I. }
    destruct (search (ensure_padding h (insertBefore_firstChild h s))); [| exact P].
    unfold addEventListener_keydown, addEventListener_input.
    now destruct (search_oninput _).
Qed.

(** X16. [installHeaderFromFile] does its work once.  After a call that
    inserted a header with the id [site-header], the fallback one or a
    fetched one, a second call registers no listener, logs nothing, and
    leaves the input, the container, the padding and the marks of the links
    as they are. *)
Theorem installHeaderFromFile_twice (s : page) :
  site_header s = false ->
  (fetch_fails (header_resource s) = true \/
   exists h : header_element,
     header_resource s = serves (Some h) /\ h_site_header h = true) ->
  let s1 := run installHeaderFromFile s in
  let s2 := run installHeaderFromFile s1 in
  site_header s1 = true /\
  search_oninput s2 = search_oninput s1 /\
  search_onkeydown s2 = search_onkeydown s1 /\
  document_onclick s2 = document_onclick s1 /\
  console s2 = console s1 /\
  search s2 = search s1 /\
  search_results s2 = search_results s1 /\
  body_paddingTop s2 = body_paddingTop s1 /\
  marks s2 = marks s1.
Proof.
  intros H W s1 s2.
  destruct (site_header_inserted s H W) as (x & E & X).
  assert (S1 : site_header s1 = true).
  { unfold s1. rewrite E. now destruct (setActiveHeaderLink_frame x) as [f ->]. }
  assert (E2 : s2 = setActiveHeaderLink s1)
    by (unfold s2; now apply installHeaderFromFile_present).
  split; [exact S1 |]. rewrite E2.
  assert (M : marks (setActiveHeaderLink s1) = marks s1)
    by (unfold s1; rewrite E; apply marks_again).
  destruct (setActiveHeaderLink_frame s1) as [f F]. rewrite F in *.
  repeat split; try reflexivity. exact M.
Qed.

Lemma installHeaderFromFile_twice_witness :
  let s1 := run installHeaderFromFile (bare_page "/moves.html" (fun _ => Rejects) not_found) in
  let s2 := run installHeaderFromFile s1 in
  site_header s1 = true /\
  search_oninput s2 = search_oninput s1 /\
  search_onkeydown s2 = search_onkeydown s1 /\
  document_onclick s2 = document_onclick s1 /\
  console s2 = console s1 /\
  search s2 = search s1 /\
  search_results s2 = search_results s1 /\
  body_paddingTop s2 = body_paddingTop s1 /\
  marks s2 = marks s1.
Proof.
  exact (installHeaderFromFile_twice
           (bare_page "/moves.html" (fun _ => Rejects) not_found)
           eq_refl (or_introl eq_refl)).
Defined.

(** *** The padding of the body *)

Lemma parseInt_floor (p : Q) : (0 <= p)%Q -> parseInt p = Qfloor p.
Proof.
  destruct p as [n d]. unfold parseInt, Qle. simpl. intros H.
  apply Z.quot_div_nonneg; lia.
Qed.

Lemma parseInt_le (p : Q) : (0 <= p)%Q -> (inject_Z (parseInt p) <= p)%Q.
Proof. intros H. rewrite (parseInt_floor p H). apply Qfloor_le. Qed.

Lemma Qlt_bool_false (a b : Q) : Qlt_bool a b = false <-> (b <= a)%Q.
Proof.
  unfold Qlt_bool. rewrite negb_false_iff. apply Qle_bool_iff.
Qed.

(** X17. After the header is inserted the top padding of the body is at
    least the height of the header, 68 when the height is measured as 0, so
    the fixed header does not cover the content; and making room a second
    time changes nothing. *)
Theorem ensure_padding_makes_room (h : header_element) (s : page) :
  (0 <= body_paddingTop s)%Q ->
  (0 <= h_height h)%Q ->
  let headerHeight := if Qeq_bool (h_height h) 0 then 68%Q else h_height h in
  (headerHeight <= body_paddingTop (ensure_padding h s))%Q /\
  ensure_padding h (ensure_padding h s) = ensure_padding h s.
Proof.
  intros P H headerHeight.
  assert (HH : (0 <= headerHeight)%Q).
  { unfold headerHeight. destruct (Qeq_bool (h_height h) 0); [discriminate | exact H]. }
  unfold ensure_padding. fold headerHeight.
  destruct (Qlt_bool (inject_Z (parseInt (body_paddingTop s))) headerHeight) eqn:L.
  - cbn [body_paddingTop set_body_paddingTop]. split.
    + rewrite <- (Qplus_0_r headerHeight) at 1.
      apply Qplus_le_compat; [apply Qle_refl | discriminate].
    + assert (N : (0 <= headerHeight + 8)%Q).
      { rewrite <- (Qplus_0_r 0). apply Qplus_le_compat; [exact HH | discriminate]. }
      assert (F : Qlt_bool (inject_Z (parseInt (headerHeight + 8))) headerHeight = false).
      { apply Qlt_bool_false. rewrite (parseInt_floor _ N).
        pose proof (Qlt_floor (headerHeight + 8)) as Lt.
        rewrite inject_Z_plus in Lt.
        apply Qlt_le_weak.
        apply (Qplus_lt_l _ _ 1).
        eapply Qle_lt_trans; [| exact Lt].
        apply Qplus_le_compat; [apply Qle_refl | discriminate]. }
      now rewrite F.
  - split; [| now rewrite L].
    apply Qlt_bool_false in L.
    eapply Qle_trans; [exact L | now apply parseInt_le].
Qed.

Lemma ensure_padding_makes_room_witness :
  (68 <= body_paddingTop
           (ensure_padding full_header
              (bare_page "/index.html" (fun _ => Rejects) Rejects)))%Q.
Proof.
  apply (proj1 (ensure_padding_makes_room full_header
                  (bare_page "/index.html" (fun _ => Rejects) Rejects)
                  ltac:(discriminate) ltac:(discriminate))).
Defined.

(** ** Searches that find nothing *)

Lemma filter_none {A : Type} (f : A -> bool) (l : list A) :
  Forall (fun x => f x = false) l -> List.filter f l = [].
Proof.
  induction 1 as [|x l H F IH]; simpl; [reflexivity |]. now rewrite H.
Qed.

(** X18. When no key of the index contains the query, the callback leaves
    the container as it does for a blank query: empty, with [display] none
    and [aria-hidden] true. *)
Theorem no_match_hides_results (s : page) (value : string) (box : results_box) :
  search s = Some value ->
  search_results s = Some box ->
  Js.trim value <> EmptyString ->
  let s' := run searchPokemon_timeout s in
  Forall
    (fun name => ~ is_substring (Js.toLowerCase (Js.trim value)) (Js.toLowerCase name))
    (Object_keys (or_empty_object (_searchPokedex s'))) ->
  search_results s' = Some hidden_box.
Proof.
  intros S B T s' F.
  destruct (timeout_query s value S T) as (index & s1 & E & V & R).
  assert (I : _searchPokedex s' = index).
  { unfold s'. now rewrite R, render_searchPokedex. }
  rewrite I in F.
  assert (M : searchMatches index (Js.toLowerCase (Js.trim value)) = []).
  { unfold searchMatches. rewrite filter_none; [reflexivity |].
    eapply Forall_impl; [exact F |]. intros name N. cbv beta in N.
    destruct (Js.includes (Js.toLowerCase name) (Js.toLowerCase (Js.trim value))) eqn:C;
      [| reflexivity].
    exfalso. apply N. now apply includes_spec. }
  assert (B1 : search_results s1 = Some box).
  { change s1 with (snd (Returned index, s1)). rewrite <- E.
    now rewrite loadSearchPokedex_search_results. }
  unfold s'. rewrite R, M. unfold renderSearchResults. now rewrite B1.
Qed.

Lemma no_match_hides_results_witness :
  search_results
    (run searchPokemon_timeout
       (type_text "zzz" (loaded_page "/index.html" (serves pokedex3))))
  = Some hidden_box.
Proof.
  apply (no_match_hides_results
           (type_text "zzz" (loaded_page "/index.html" (serves pokedex3))) "zzz"
           hidden_box eq_refl eq_refl ltac:(discriminate)).
  repeat constructor; intros H; apply includes_spec in H; discriminate H.
Defined.

(** X19. When the data cannot be fetched, a search does not fail: the
    callback logs the one warning of the loader, puts the empty mapping in
    the global after its one fetch, and leaves the container empty and
    hidden, whatever the text. *)
Theorem offline_search_hides_results (s : page) (value : string) (box : results_box) :
  search s = Some value ->
  search_results s = Some box ->
  Js.trim value <> EmptyString ->
  truthy (_searchPokedex s) = false ->
  fetch_fails (network s (fetches s)) = true ->
  let s' := run searchPokemon_timeout s in
  search_results s' = Some hidden_box /\
  loaded_index s' = (empty_object, S (fetches s)) /\
  exists e : exn,
    console s' = console s ++ [("Header search: could not load pokedex.json:", e)].
Proof.
  intros S B T C F s'.
  destruct (timeout_query s value S T) as (index & s1 & E & V & R).
  destruct (loadSearchPokedex_failed (log_evaluation value s) C F) as [e E'].
  rewrite E' in E. injection E as <- <-.
  unfold s'. rewrite R. unfold renderSearchResults, log_evaluation. simpl.
  rewrite B. simpl. repeat split. now exists e.
Qed.

Lemma offline_search_hides_results_witness :
  search_results
    (run searchPokemon_timeout
       (type_text "char"
          (run installHeaderFromFile
             (bare_page "/index.html" (fun _ => Rejects) (serves (Some full_header))))))
  = Some hidden_box.
Proof.
  apply (proj1 (offline_search_hides_results
                  (type_text "char"
                     (run installHeaderFromFile
                        (bare_page "/index.html" (fun _ => Rejects)
                           (serves (Some full_header)))))
                  "char" hidden_box eq_refl eq_refl ltac:(discriminate)
                  eq_refl eq_refl)).
Defined.

(** ** Rows that stay after a click outside *)

(** X21. A click outside hides the container but keeps its rows: when the
    first row was made by [renderSearchResults] for a name, pressing Enter
    after the click still opens the detail page of that name. *)
Theorem enter_after_click_away (s : page) (value : string) (box : results_box)
    (name : string) (rest : list result_row) :
  search s = Some value ->
  search_results s = Some box ->
  rows box = rendered_row name :: rest ->
  search_onkeydown s = [enter_key_listener] ->
  document_onclick s = [click_away_listener] ->
  let s' := dispatch_click elsewhere s in
  option_map style_display (search_results s') = Some display_none /\
  navigations (press_key "Enter" s') =
    navigations s ++ ["pokemon.html?name=" +:+ Js.encodeURIComponent name].
Proof.
  intros S B R K C s'.
  assert (E : s' = set_search_results (Some (with_display display_none box)) s).
  { unfold s', dispatch_click. rewrite C. cbn [fold_left]. unfold click_away.
    now rewrite B, S. }
  rewrite E. split; [reflexivity |].
  unfold press_key, dispatch_keydown.
  cbn [search search_onkeydown set_search_results]. rewrite S, K.
  cbn [fold_left]. unfold enter_key. cbn [String.eqb Ascii.eqb Bool.eqb].
  unfold first_result. cbn [search_results set_search_results with_display rows].
  rewrite R. cbn [head].
  apply (click_rendered_row 0 name
           (set_search_results (Some (with_display display_none box)) s)
           (with_display display_none box) eq_refl).
  cbn [with_display rows]. now rewrite R.
Qed.

Lemma enter_after_click_away_witness :
  navigations (press_key "Enter" (dispatch_click elsewhere mime_page))
  = ["pokemon.html?name=Mr.%20Mime"].
Proof.
  apply (proj2 (enter_after_click_away mime_page "mr"
                  (with_aria_hidden "false"
                     (with_display display_block
                        (with_rows [rendered_row "Mr. Mime"]
                           {| style_display := display_none; rows := [];
                              aria_hidden := Some "true" |})))
                  "Mr. Mime" [] eq_refl eq_refl eq_refl eq_refl eq_refl)).
Defined.
